(** * Enrichment orchestrator and result cache of [backend/main.py]

    A shallow embedding of the article pipeline ([fetch_article],
    [extract_keywords], [filter_entities], [process_article_data]), of the
    in-memory cache ([article_cache], [manage_cache_size],
    [update_article_cache]) and of the two routes that use it
    ([process_article], [get_cached_articles]).

    Conventions of the embedding.
    - A Python [str] is a [string]; one [ascii] stands for one character, so
      [len] is [String.length].
    - A Python [float] ([time.time()], scores, [processing_time]) is an exact
      rational [Q]; an [int] option such as [min_length] is a [Z].
    - A [dict] is an association list in insertion order without repeated
      keys: the order is observable through [sorted] (stable) and through
      [items()].
    - The libraries the module calls (newspaper, spaCy, VADER, YAKE, socials,
      socialshares, socid_extractor, markdownify, hashlib, datetime) are
      inputs: what they compute is a [Variable] of the section or a field
      of the world, and a call that can raise has its recorded outcome
      ([outcome]) or the exception that interrupts it ([attempt]).
    - Exceptions appear where the source handles them: a call either
      [Returned] a value or [Raised] an exception. *)

From Stdlib Require Import List String Ascii Bool Arith ZArith QArith Lia Lqa.
From Stdlib Require Import Permutation Sorted DecimalString.
Import ListNotations.

Local Open Scope string_scope.
Local Open Scope list_scope.

(** ** Exceptions and outcomes *)

Inductive exception : Type :=
| HTTPException (status_code : nat) (detail : string)
| Exception (message : string).

Inductive outcome (A : Type) : Type :=
| Returned (a : A)
| Raised (e : exception).

Arguments Returned {A} a.
Arguments Raised {A} e.

Definition HTTP_422_UNPROCESSABLE_ENTITY : nat := 422.
Definition HTTP_500_INTERNAL_SERVER_ERROR : nat := 500.

(** [str(e)]: the message of a plain exception; an [HTTPException] prints
    as [status: detail]. *)
Definition str (e : exception) : string :=
  match e with
  | HTTPException c d => NilZero.string_of_uint (Nat.to_uint c) ++ ": " ++ d
  | Exception m => m
  end.

(** [isinstance(r, Exception)] on one slot of the list that [asyncio.gather]
    returns under [return_exceptions=True]. *)
Definition is_exception {A : Type} (r : outcome A) : bool :=
  match r with
  | Returned _ => false
  | Raised _ => true
  end.

(** [asyncio.to_thread(f)] wrapped in a task: the worker either delivers the
    value of the body or the exception that interrupted it. *)
Definition to_thread {A : Type} (fault : option exception) (body : A) : outcome A :=
  match fault with
  | Some e => Raised e
  | None => Returned body
  end.

(** A call of a library outside any [try] of the function that makes it:
    it gives its value, or raises the exception recorded for it. *)
Definition attempt {A : Type} (fault : option exception) (value : A) : outcome A :=
  match fault with
  | Some e => Raised e
  | None => Returned value
  end.

(** ** Constants *)

Definition EXCLUDED_ENTITY_TYPES : list string :=
  ["TIME"; "DATE"; "LANGUAGE"; "PERCENT"; "MONEY"; "QUANTITY"; "ORDINAL"; "CARDINAL"].
Definition SOCIAL_PLATFORMS : list string :=
  ["facebook"; "pinterest"; "linkedin"; "reddit"; "twitter"; "instagram"].
Definition CACHE_SIZE : nat := 100.

(** ** Response models *)

Module KeywordResponse.
Record t : Type := mk { keyword : string; score : Q }.
End KeywordResponse.

Module EntityResponse.
Record t : Type := mk { type : string; text : string }.
End EntityResponse.

Module SentimentResponse.
Record t : Type := mk { compound : Q; positive : Q; negative : Q; neutral : Q }.
End SentimentResponse.

(** A [datetime]: the wall-clock reading in microseconds and the optional
    UTC offset of an aware value.  Naive values compare by [wall]. *)
Record datetime : Type := { wall : Z; tzinfo : option Z }.

(** [d.replace(tzinfo=None)]: the same wall-clock reading, naive. *)
Definition replace_tzinfo_None (d : datetime) : datetime :=
  {| wall := wall d; tzinfo := None |}.

(** A value of a [Dict[str, Any]]. *)
Inductive Any : Type :=
| AnyStr (s : string)
| AnyInt (n : Z)
| AnyList (l : list string).

Definition Dict : Type := list (string * Any).

Module ArticleResponse.
Record t : Type := mk {
  title : string;
  date : option datetime;
  text : string;
  markdown : string;
  html : string;
  summary : string;
  keywords : list KeywordResponse.t;
  authors : list string;
  banner : option string;
  images : list string;
  entities : list EntityResponse.t;
  videos : list string;
  social_accounts : Dict;
  sentiment : SentimentResponse.t;
  accounts : Dict;
  social_shares : Dict;
  processing_time : Q
}.
End ArticleResponse.

Module EntityFilterOptions.
Record t : Type := mk { exclude_types : list string; min_length : Z }.
(** [EntityFilterOptions()] *)
Definition default : t := mk EXCLUDED_ENTITY_TYPES 1.
End EntityFilterOptions.

(** ** What the libraries hand back *)

(** A spaCy entity span and the analysed document. *)
Module Span.
Record t : Type := mk { label_ : string; text : string }.
End Span.

Record Doc : Type := { ents : list Span.t }.

(** The parsed newspaper article. *)
Module Article.
Record t : Type := mk {
  title : string;
  publish_date : option datetime;
  text : string;
  html : string;
  article_html : string;
  summary : string;
  authors : list string;
  top_image : option string;
  images : list string;
  movies : list string
}.
Definition set_text (a : t) (s : string) : t :=
  mk (title a) (publish_date a) s (html a) (article_html a) (summary a)
     (authors a) (top_image a) (images a) (movies a).
Definition set_summary (a : t) (s : string) : t :=
  mk (title a) (publish_date a) (text a) (html a) (article_html a) s
     (authors a) (top_image a) (images a) (movies a).
End Article.

(** VADER's [polarity_scores] dictionary. *)
Record PolarityScores : Type := { compound : Q; pos : Q; neg : Q; neu : Q }.

(** [SentimentResponse] built from the unpacked scores, through the aliases
    [pos], [neg] and [neu]. *)
Definition SentimentResponse_of (s : PolarityScores) : SentimentResponse.t :=
  SentimentResponse.mk (compound s) (pos s) (neg s) (neu s).

(** Arguments of [get_keyword_extractor]. *)
Record YakeConfig : Type := { language : string; n : nat; dedup_lim : Q; top : nat }.

(** Calls that leave the module, in the order they are made. *)
Inductive call : Type :=
| YakeExtract (cfg : YakeConfig) (text : string).

(** ** Small list and string helpers *)

Definition mem_string (s : string) (l : list string) : bool :=
  existsb (String.eqb s) l.

Definition pair_eqb (a b : string * string) : bool :=
  String.eqb (fst a) (fst b) && String.eqb (snd a) (snd b).

Definition mem_pair (k : string * string) (l : list (string * string)) : bool :=
  existsb (pair_eqb k) l.

(** ASCII lower-casing, the instance of [str.lower] used in the scenarios. *)
Definition lower_ascii (c : ascii) : ascii :=
  let k := nat_of_ascii c in
  if (65 <=? k)%nat && (k <=? 90)%nat then ascii_of_nat (k + 32) else c.

Fixpoint str_lower (s : string) : string :=
  match s with
  | EmptyString => EmptyString
  | String c r => String (lower_ascii c) (str_lower r)
  end.

(** ** Keyword extraction *)

(** [extract_keywords(text, language, n, dedup_lim, top)].  [yake] is the
    outcome of building the extractor and running it on the text; the second
    component lists the calls made to it. *)
Definition extract_keywords
  (yake : YakeConfig -> string -> outcome (list (string * Q)))
  (text : string) (cfg : YakeConfig) : list KeywordResponse.t * list call :=
  if String.eqb text "" || (String.length text <? 10)%nat then ([], [])
  else
    match yake cfg text with
    | Returned keywords =>
        (map (fun p => KeywordResponse.mk (fst p) (snd p)) keywords, [YakeExtract cfg text])
    | Raised _ => ([], [YakeExtract cfg text])
    end.

(** ** Entity filter *)

Section EntityFilter.

(** [str.lower] *)
Variable lower : string -> string.

Definition entity_key (e : EntityResponse.t) : string * string :=
  (EntityResponse.type e, lower (EntityResponse.text e)).

(** The condition of the comprehension. *)
Definition entity_kept (options : EntityFilterOptions.t) (ent : Span.t) : bool :=
  negb (mem_string (Span.label_ ent) (EntityFilterOptions.exclude_types options))
  && (EntityFilterOptions.min_length options <=? Z.of_nat (String.length (Span.text ent)))%Z.

(** The deduplication loop, with its two accumulators. *)
Fixpoint dedup_loop (seen : list (string * string)) (unique_entities : list EntityResponse.t)
  (entities : list EntityResponse.t) : list EntityResponse.t :=
  match entities with
  | [] => unique_entities
  | entity :: rest =>
      let key := entity_key entity in
      if mem_pair key seen then dedup_loop seen unique_entities rest
      else dedup_loop (key :: seen) (unique_entities ++ [entity]) rest
  end.

Definition filter_entities (doc : Doc) (options : EntityFilterOptions.t)
  : list EntityResponse.t :=
  let entities :=
    map (fun ent => EntityResponse.mk (Span.label_ ent) (Span.text ent))
        (filter (entity_kept options) (ents doc)) in
  dedup_loop [] [] entities.

End EntityFilter.

(** ** The world outside the module *)

(** What the external services answer.  Each one is a function of the
    arguments the module passes to it. *)
Record World : Type := {
  (** [Article(link).download()] then [.parse()] *)
  newspaper : string -> outcome Article.t;
  (** [article.nlp()], which fills in the summary *)
  newspaper_nlp : Article.t -> outcome string;
  (** [socials.extract(link).get_matches_per_platform()] *)
  socials_extract : string -> outcome Dict;
  (** [socialshares.fetch(link, platforms)] *)
  socialshares_fetch : string -> list string -> outcome Dict;
  (** [sentiment_analyzer.polarity_scores(text)] *)
  polarity_scores : string -> outcome PolarityScores;
  (** [displacy.render(doc)] in the entity style *)
  displacy_render : Doc -> outcome string;
  (** the YAKE extractor for a configuration, run on a text *)
  yake : YakeConfig -> string -> outcome (list (string * Q));
  (** [socid_extractor.extract(text)] *)
  socid_extract : string -> outcome Dict;
  (** interruptions of the two worker threads that run this module's own
      functions ([filter_entities], [extract_keywords]) *)
  entities_fault : option exception;
  keywords_fault : option exception;
  (** what the calls that [process_article_data] makes outside its [try]
      raise, when they raise: the spaCy pipeline on the text, [markdownify]
      on the article HTML, and the constructors of the response models *)
  nlp_fault : option exception;
  md_fault : option exception;
  response_fault : option exception
}.

(** The slots of [results] after [asyncio.gather] with
    [return_exceptions=True], in the order the tasks were appended. *)
Record Results : Type := {
  results_0 : outcome (list EntityResponse.t);
  results_1 : outcome Dict;
  results_2 : outcome Dict;
  results_3 : outcome PolarityScores;
  results_4 : outcome string;
  results_5 : outcome (list KeywordResponse.t);
  results_6 : outcome Dict
}.

(** The seven locals assigned from [results]. *)
Record Payloads : Type := {
  filtered_entities : list EntityResponse.t;
  social_accounts : Dict;
  social_shares : Dict;
  sentiment_scores : PolarityScores;
  spacy_html : string;
  keywords : list KeywordResponse.t;
  accounts : Dict
}.

(** [r if not isinstance(r, Exception) else default] *)
Definition unless_exception {A : Type} (r : outcome A) (default : A) : A :=
  match r with
  | Returned v => v
  | Raised _ => default
  end.

Definition zero_scores : PolarityScores :=
  {| compound := 0; pos := 0; neg := 0; neu := 0 |}.

(** "Process results with error handling". *)
Definition process_results (results : Results) : Payloads :=
  {| filtered_entities := unless_exception (results_0 results) [];
     social_accounts := unless_exception (results_1 results) [];
     social_shares := unless_exception (results_2 results) [];
     sentiment_scores := unless_exception (results_3 results) zero_scores;
     spacy_html := unless_exception (results_4 results) "";
     keywords := unless_exception (results_5 results) [];
     accounts := unless_exception (results_6 results) [] |}.

Definition keywords_config (n top : nat) : YakeConfig :=
  {| language := "en"; n := n; dedup_lim := 9 # 10; top := top |}.

Section Pipeline.

(** [str.lower] *)
Variable lower : string -> string.
(** The spaCy pipeline, [nlp(text)]. *)
Variable nlp : string -> Doc.
(** [markdownify] with the options of the call site. *)
Variable md : string -> string.
(** The fallback extraction of [fetch_article]: the three [re.sub] calls,
    [html.unescape], whitespace collapsing and [strip]. *)
Variable html_to_text : string -> string.

(** [fetch_article(link)] *)
Definition fetch_article (w : World) (link : string) : outcome Article.t :=
  let could_not_fetch e :=
    Raised (HTTPException HTTP_422_UNPROCESSABLE_ENTITY
                          ("Could not fetch article: " ++ str e)) in
  match newspaper w link with
  | Raised e => could_not_fetch e
  | Returned article =>
      let article :=
        if (String.length (Article.text article) <? 50)%nat then
          let clean_text := html_to_text (Article.html article) in
          if (String.length (Article.text article) <? String.length clean_text)%nat
          then Article.set_text article clean_text
          else article
        else article in
      if String.eqb (Article.summary article) "" then
        match newspaper_nlp w article with
        | Raised e => could_not_fetch e
        | Returned s => Returned (Article.set_summary article s)
        end
      else Returned article
  end.

(** [nlp(text[:500000]) if len(text) > 500000 else nlp(text)] *)
Definition analysed_document (text : string) : Doc :=
  if (500000 <? Z.of_nat (String.length text))%Z
  then nlp (substring 0 (Z.to_nat 500000) text)
  else nlp text.

(** The seven tasks of [process_article_data], joined. *)
Definition gather_tasks (w : World) (link : string) (text : string) (doc : Doc) : Results :=
  {| results_0 := to_thread (entities_fault w)
                    (filter_entities lower doc EntityFilterOptions.default);
     results_1 := socials_extract w link;
     results_2 := socialshares_fetch w link SOCIAL_PLATFORMS;
     results_3 := polarity_scores w text;
     results_4 := displacy_render w doc;
     results_5 := to_thread (keywords_fault w)
                    (fst (extract_keywords (yake w) text (keywords_config 1 5)));
     results_6 := socid_extract w text |}.

(** [process_article_data(link)]; [t_start] and [t_end] are the two readings
    of [time.time()].  Only the join of the tasks is inside the [try]: the
    fetch, the spaCy pipeline, [markdownify] and the constructors of the
    response raise to the caller. *)
Definition process_article_data (w : World) (t_start t_end : Q) (link : string)
  : outcome ArticleResponse.t :=
  match fetch_article w link with
  | Raised e => Raised e
  | Returned article =>
      let text := Article.text article in
      match attempt (nlp_fault w) (analysed_document text) with
      | Raised e => Raised e
      | Returned doc =>
          let p := process_results (gather_tasks w link text doc) in
          let processing_time := t_end - t_start in
          match attempt (md_fault w) (md (Article.article_html article)) with
          | Raised e => Raised e
          | Returned markdown =>
              attempt (response_fault w)
                (ArticleResponse.mk
                   (Article.title article)
                   (Article.publish_date article)
                   (Article.text article)
                   markdown
                   (Article.article_html article)
                   (Article.summary article)
                   (keywords p)
                   (Article.authors article)
                   (Article.top_image article)
                   (Article.images article)
                   (filtered_entities p)
                   (Article.movies article)
                   (social_accounts p)
                   (SentimentResponse_of (sentiment_scores p))
                   (accounts p)
                   (social_shares p)
                   processing_time)
          end
      end
  end.

End Pipeline.

(** ** Dictionaries in insertion order *)

Section Dictionary.

Variable V : Type.

Definition dict : Type := list (string * V).

(** [d.get(k)] *)
Fixpoint dict_get (d : dict) (k : string) : option V :=
  match d with
  | [] => None
  | (k', v) :: rest => if String.eqb k k' then Some v else dict_get rest k
  end.

(** [d[k] = v]: an existing key keeps its place, a new one goes last. *)
Fixpoint dict_set (d : dict) (k : string) (v : V) : dict :=
  match d with
  | [] => [(k, v)]
  | (k', v') :: rest =>
      if String.eqb k k' then (k, v) :: rest else (k', v') :: dict_set rest k v
  end.

(** [del d[k]] for a key of [d]. *)
Definition dict_del (d : dict) (k : string) : dict :=
  filter (fun p => negb (String.eqb k (fst p))) d.

(** [d.keys()] *)
Definition dict_keys (d : dict) : list string := map fst d.

End Dictionary.

Arguments dict_get {V} d k.
Arguments dict_set {V} d k v.
Arguments dict_del {V} d k.
Arguments dict_keys {V} d.

(** ** [sorted] and [list.sort] *)

Section StableSort.

Variables A K : Type.
(** The order on sort keys: [<=] for an ascending sort, [>=] under
    [reverse=True]. *)
Variable le : K -> K -> bool.
Variable key : A -> K.

(** [x] goes in front of the first element that may follow it, so elements
    with equal sort keys keep the order they came in. *)
Fixpoint insert_stable (x : A) (l : list A) : list A :=
  match l with
  | [] => [x]
  | y :: rest => if le (key x) (key y) then x :: y :: rest else y :: insert_stable x rest
  end.

Definition sort_stable (l : list A) : list A := fold_right insert_stable [] l.

End StableSort.

Arguments insert_stable {A K} le key x l.
Arguments sort_stable {A K} le key l.

(** [sorted(l, key=key)] on float keys. *)
Definition sorted {A : Type} (key : A -> Q) (l : list A) : list A :=
  sort_stable Qle_bool key l.

(** [l.sort(key=key, reverse=True)] on datetime keys. *)
Definition sort_reverse {A : Type} (key : A -> Z) (l : list A) : list A :=
  sort_stable (fun a b => (b <=? a)%Z) key l.

(** [l[a:b]] for [0 <= a <= b] *)
Definition slice {A : Type} (a b : nat) (l : list A) : list A :=
  firstn (b - a) (skipn a l).

(** ** The article cache *)

Module CacheItem.
Record t : Type := mk { data : ArticleResponse.t; timestamp : Q }.
End CacheItem.

Definition Cache : Type := dict CacheItem.t.

(** [article_cache[k].get("timestamp", 0)] for a key of the cache. *)
Definition timestamp_of (article_cache : Cache) (k : string) : Q :=
  match dict_get article_cache k with
  | Some item => CacheItem.timestamp item
  | None => 0
  end.

(** The keys [manage_cache_size] picks: the oldest ones, as many as there are
    items above [capacity]. *)
Definition keys_to_remove (capacity : nat) (article_cache : Cache) : list string :=
  firstn (List.length article_cache - capacity)
         (sorted (timestamp_of article_cache) (dict_keys article_cache)).

(** [manage_cache_size()] for a cache bounded at [capacity]. *)
Definition manage_cache_size_at (capacity : nat) (article_cache : Cache) : Cache :=
  if (capacity <? List.length article_cache)%nat then
    fold_left dict_del (keys_to_remove capacity article_cache) article_cache
  else article_cache.

Definition manage_cache_size : Cache -> Cache := manage_cache_size_at CACHE_SIZE.

(** The write both [process_article] and [update_article_cache] make: the
    assignment to [article_cache[cache_key]] followed by
    [manage_cache_size()]. *)
Definition save_to_cache_at (capacity : nat) (article_cache : Cache) (cache_key : string)
  (result : ArticleResponse.t) (now : Q) : Cache :=
  manage_cache_size_at capacity
    (dict_set article_cache cache_key (CacheItem.mk result now)).

Definition save_to_cache : Cache -> string -> ArticleResponse.t -> Q -> Cache :=
  save_to_cache_at CACHE_SIZE.

(** The test of [process_article] on a cached item: older than one hour. *)
Definition older_than_1_hour (now : Q) (cached_item : CacheItem.t) : bool :=
  negb (Qle_bool (now - CacheItem.timestamp cached_item) 3600).

(** ** Routes *)

Record ArticleAction : Type := { link : string; cache : bool }.

(** The body of a successful [process_article] response. *)
Record Reply : Type := { data : ArticleResponse.t; cached : bool }.

(** A task added to [background_tasks]. *)
Inductive background_task : Type :=
| update_article_cache_task (url : string) (cache_key : string).

Module CachedArticleResponse.
Record t : Type := mk { cache_key : string; cached_at : Z; article : ArticleResponse.t }.
End CachedArticleResponse.

Record CachedArticlesListResponse : Type := {
  total_articles : nat;
  articles : list CachedArticleResponse.t
}.

(** An element of the list [cached_articles] of [get_cached_articles]. *)
Record cached_article : Type := {
  ca_cache_key : string;
  ca_cached_at : Z;
  ca_creation_date : Z;
  ca_article : ArticleResponse.t
}.

Section Routes.

Variable lower : string -> string.
Variable nlp : string -> Doc.
Variable md : string -> string.
Variable html_to_text : string -> string.
(** [hashlib.md5(url.encode()).hexdigest()] *)
Variable md5_hexdigest : string -> string.
(** [datetime.fromtimestamp], a naive local reading. *)
Variable fromtimestamp : Q -> Z.

Definition get_cache_key (url : string) : string := md5_hexdigest url.

(** [update_article_cache(url, cache_key)]; [now] is the reading of
    [time.time()] stored with the entry. *)
Definition update_article_cache (w : World) (t_start t_end now : Q)
  (url cache_key : string) (article_cache : Cache) : Cache :=
  match process_article_data lower nlp md html_to_text w t_start t_end url with
  | Returned result => save_to_cache article_cache cache_key result now
  | Raised _ => article_cache
  end.

(** [process_article(article, background_tasks)]: the response or the raised
    [HTTPException], the tasks added to [background_tasks], and the cache
    afterwards.  [now] is the one reading of [time.time()] the route itself
    makes (in the age test on a hit, in the stored entry on a miss).  The
    membership test and the subscript that follows it are one lookup. *)
Definition process_article (w : World) (t_start t_end now : Q)
  (article : ArticleAction) (article_cache : Cache)
  : outcome Reply * list background_task * Cache :=
  let cache_key := get_cache_key (link article) in
  match (if cache article then dict_get article_cache cache_key else None) with
  | Some cached_item =>
      let background_tasks :=
        if older_than_1_hour now cached_item
        then [update_article_cache_task (link article) cache_key]
        else [] in
      (Returned {| data := CacheItem.data cached_item; cached := true |},
       background_tasks, article_cache)
  | None =>
      match process_article_data lower nlp md html_to_text w t_start t_end (link article) with
      | Returned result =>
          (Returned {| data := result; cached := false |}, [],
           save_to_cache article_cache cache_key result now)
      | Raised (HTTPException status_code detail) =>
          (Raised (HTTPException status_code detail), [], article_cache)
      | Raised (Exception message) =>
          (Raised (HTTPException HTTP_500_INTERNAL_SERVER_ERROR
                     ("Error processing article: " ++ message)), [], article_cache)
      end
  end.

(** Running one scheduled background task. *)
Definition run_background_task (w : World) (t_start t_end now : Q)
  (task : background_task) (article_cache : Cache) : Cache :=
  match task with
  | update_article_cache_task url cache_key =>
      update_article_cache w t_start t_end now url cache_key article_cache
  end.

(** The date [get_cached_articles] sorts on. *)
Definition creation_date_of (cached_at : Z) (article_data : ArticleResponse.t) : Z :=
  match ArticleResponse.date article_data with
  | Some article_date =>
      let article_date :=
        match tzinfo article_date with
        | Some _ => replace_tzinfo_None article_date
        | None => article_date
        end in
      wall article_date
  | None => cached_at
  end.

(** The loop over [article_cache.items()].  A response model is always
    truthy, so no item is skipped by the test on [article_data]. *)
Definition cached_articles_of (article_cache : Cache) : list cached_article :=
  map (fun item =>
         let cached_at := fromtimestamp (CacheItem.timestamp (snd item)) in
         {| ca_cache_key := fst item;
            ca_cached_at := cached_at;
            ca_creation_date := creation_date_of cached_at (CacheItem.data (snd item));
            ca_article := CacheItem.data (snd item) |})
      article_cache.

(** [get_cached_articles(limit, offset)] *)
Definition get_cached_articles (limit offset : nat) (article_cache : Cache)
  : CachedArticlesListResponse :=
  let cached_articles := sort_reverse ca_creation_date (cached_articles_of article_cache) in
  let paginated_articles := slice offset (offset + limit) cached_articles in
  {| total_articles := List.length cached_articles;
     articles :=
       map (fun item =>
              CachedArticleResponse.mk (ca_cache_key item) (ca_cached_at item) (ca_article item))
           paginated_articles |}.

End Routes.

(** ** The entity filter as the specification words it *)

Section EntityFilterSpec.

Variable lower : string -> string.

(** An entity stays exactly when none of the entities in front of it has the
    same type and the same lower-cased text; [earlier] lists the entities
    already passed. *)
Fixpoint first_occurrences (earlier : list EntityResponse.t) (l : list EntityResponse.t)
  : list EntityResponse.t :=
  match l with
  | [] => []
  | e :: rest =>
      if existsb (fun y => pair_eqb (entity_key lower e) (entity_key lower y)) earlier
      then first_occurrences (earlier ++ [e]) rest
      else e :: first_occurrences (earlier ++ [e]) rest
  end.

(** Some entity of [l] has the type and the lower-cased text of [e]. *)
Definition same_key_in (e : EntityResponse.t) (l : list EntityResponse.t) : Prop :=
  exists y, In y l /\ entity_key lower y = entity_key lower e.

(** Drop by type and by length, then keep first occurrences. *)
Definition filter_spec (rawEntities : list Span.t) (excludeTypes : list string)
  (minLength : Z) : list EntityResponse.t :=
  first_occurrences []
    (map (fun ent => EntityResponse.mk (Span.label_ ent) (Span.text ent))
       (filter (fun ent =>
                  negb (mem_string (Span.label_ ent) excludeTypes)
                  && (minLength <=? Z.of_nat (String.length (Span.text ent)))%Z)
               rawEntities)).

End EntityFilterSpec.

(** [subsequence s l]: [s] is [l] with some elements left out, the others in
    the order they had. *)
Inductive subsequence {A : Type} : list A -> list A -> Prop :=
| subsequence_nil : subsequence [] []
| subsequence_skip x s l : subsequence s l -> subsequence s (x :: l)
| subsequence_keep x s l : subsequence s l -> subsequence (x :: s) (x :: l).

(** ** Forcing one analysis task to fail *)

Inductive task : Type :=
| EntitiesTask
| SocialAccountsTask
| SocialSharesTask
| SentimentTask
| SpacyHtmlTask
| KeywordsTask
| AccountsTask.

(** The world [w], except that task [t] raises [e]. *)
Definition fail_task (t : task) (e : exception) (w : World) : World :=
  match t with
  | EntitiesTask =>
      Build_World (newspaper w) (newspaper_nlp w) (socials_extract w) (socialshares_fetch w)
        (polarity_scores w) (displacy_render w) (yake w) (socid_extract w)
        (Some e) (keywords_fault w)
        (nlp_fault w) (md_fault w) (response_fault w)
  | SocialAccountsTask =>
      Build_World (newspaper w) (newspaper_nlp w) (fun _ => Raised e) (socialshares_fetch w)
        (polarity_scores w) (displacy_render w) (yake w) (socid_extract w)
        (entities_fault w) (keywords_fault w)
        (nlp_fault w) (md_fault w) (response_fault w)
  | SocialSharesTask =>
      Build_World (newspaper w) (newspaper_nlp w) (socials_extract w) (fun _ _ => Raised e)
        (polarity_scores w) (displacy_render w) (yake w) (socid_extract w)
        (entities_fault w) (keywords_fault w)
        (nlp_fault w) (md_fault w) (response_fault w)
  | SentimentTask =>
      Build_World (newspaper w) (newspaper_nlp w) (socials_extract w) (socialshares_fetch w)
        (fun _ => Raised e) (displacy_render w) (yake w) (socid_extract w)
        (entities_fault w) (keywords_fault w)
        (nlp_fault w) (md_fault w) (response_fault w)
  | SpacyHtmlTask =>
      Build_World (newspaper w) (newspaper_nlp w) (socials_extract w) (socialshares_fetch w)
        (polarity_scores w) (fun _ => Raised e) (yake w) (socid_extract w)
        (entities_fault w) (keywords_fault w)
        (nlp_fault w) (md_fault w) (response_fault w)
  | KeywordsTask =>
      Build_World (newspaper w) (newspaper_nlp w) (socials_extract w) (socialshares_fetch w)
        (polarity_scores w) (displacy_render w) (yake w) (socid_extract w)
        (entities_fault w) (Some e)
        (nlp_fault w) (md_fault w) (response_fault w)
  | AccountsTask =>
      Build_World (newspaper w) (newspaper_nlp w) (socials_extract w) (socialshares_fetch w)
        (polarity_scores w) (displacy_render w) (yake w) (fun _ => Raised e)
        (entities_fault w) (keywords_fault w)
        (nlp_fault w) (md_fault w) (response_fault w)
  end.

(** Which slots of [results] hold an exception. *)
Definition failed_tasks (results : Results) : list task :=
  (if is_exception (results_0 results) then [EntitiesTask] else [])
  ++ (if is_exception (results_1 results) then [SocialAccountsTask] else [])
  ++ (if is_exception (results_2 results) then [SocialSharesTask] else [])
  ++ (if is_exception (results_3 results) then [SentimentTask] else [])
  ++ (if is_exception (results_4 results) then [SpacyHtmlTask] else [])
  ++ (if is_exception (results_5 results) then [KeywordsTask] else [])
  ++ (if is_exception (results_6 results) then [AccountsTask] else []).

(** The record [r] with the field fed by task [t] at its default.  The
    payload of [SpacyHtmlTask] feeds no field. *)
Definition with_default (t : task) (r : ArticleResponse.t) : ArticleResponse.t :=
  let mk kw en sa se ac ss :=
    ArticleResponse.mk (ArticleResponse.title r) (ArticleResponse.date r)
      (ArticleResponse.text r) (ArticleResponse.markdown r) (ArticleResponse.html r)
      (ArticleResponse.summary r) kw (ArticleResponse.authors r)
      (ArticleResponse.banner r) (ArticleResponse.images r) en
      (ArticleResponse.videos r) sa se ac ss (ArticleResponse.processing_time r) in
  let kw := ArticleResponse.keywords r in
  let en := ArticleResponse.entities r in
  let sa := ArticleResponse.social_accounts r in
  let se := ArticleResponse.sentiment r in
  let ac := ArticleResponse.accounts r in
  let ss := ArticleResponse.social_shares r in
  match t with
  | EntitiesTask => mk kw [] sa se ac ss
  | SocialAccountsTask => mk kw en [] se ac ss
  | SocialSharesTask => mk kw en sa se ac []
  | SentimentTask => mk kw en sa (SentimentResponse.mk 0 0 0 0) ac ss
  | SpacyHtmlTask => mk kw en sa se ac ss
  | KeywordsTask => mk [] en sa se ac ss
  | AccountsTask => mk kw en sa se [] ss
  end.

(** The string-valued fields of a record. *)
Definition string_fields (r : ArticleResponse.t) : list string :=
  [ArticleResponse.title r; ArticleResponse.text r; ArticleResponse.markdown r;
   ArticleResponse.html r; ArticleResponse.summary r].

(** ** A sample world *)

Definition sample_article : Article.t :=
  Article.mk "Al at the fair" None
    "Al went to the fair in 2023 and met Al again near the old mill by the river."
    "<html><body><p>Al went to the fair.</p></body></html>"
    "<p>Al went to the fair.</p>"
    "Al went to the fair."
    ["Al"] None [] [].

Definition sample_doc : Doc :=
  {| ents := [Span.mk "PERSON" "Al"; Span.mk "DATE" "2023"; Span.mk "PERSON" "al"] |}.

Definition sample_world : World :=
  {| newspaper := fun _ => Returned sample_article;
     newspaper_nlp := fun _ => Returned "Al went to the fair.";
     socials_extract := fun _ => Returned [("twitter", AnyList ["https://twitter.com/al"])];
     socialshares_fetch := fun _ _ => Returned [("reddit", AnyInt 3)];
     polarity_scores := fun _ => Returned {| compound := 1 # 2; pos := 1 # 4; neg := 0; neu := 3 # 4 |};
     displacy_render := fun _ => Returned "<div class='entities'>Al</div>";
     yake := fun _ _ => Returned [("fair", 1 # 10)];
     socid_extract := fun _ => Returned [("uid", AnyStr "al")];
     entities_fault := None;
     keywords_fault := None;
     nlp_fault := None;
     md_fault := None;
     response_fault := None |}.

(** A world whose download fails. *)
Definition offline_world : World :=
  {| newspaper := fun _ => Raised (Exception "connection refused");
     newspaper_nlp := fun _ => Returned "";
     socials_extract := fun _ => Returned [];
     socialshares_fetch := fun _ _ => Returned [];
     polarity_scores := fun _ => Returned zero_scores;
     displacy_render := fun _ => Returned "";
     yake := fun _ _ => Returned [];
     socid_extract := fun _ => Returned [];
     entities_fault := None;
     keywords_fault := None;
     nlp_fault := None;
     md_fault := None;
     response_fault := None |}.

Definition sample_nlp (text : string) : Doc := sample_doc.
Definition sample_md (html : string) : string := "Al went to the fair.".
Definition sample_html_to_text (html : string) : string := "Al went to the fair.".
Definition sample_md5 (url : string) : string := url.
Definition sample_fromtimestamp (t : Q) : Z := (Qnum t * 1000000 / Z.pos (Qden t))%Z.

Definition sample_record (title : string) (date : option datetime) : ArticleResponse.t :=
  ArticleResponse.mk title date "text" "markdown" "<p>html</p>" "summary"
    [] [] None [] [] [] [] (SentimentResponse.mk 0 0 0 0) [] [] 0.


(** ** A run of cache writes *)

(** One write: the key, the record and the reading of the clock. *)
Record cache_write : Type := {
  write_key : string;
  write_result : ArticleResponse.t;
  write_now : Q
}.

Definition entry_of (p : cache_write) : string * CacheItem.t :=
  (write_key p, CacheItem.mk (write_result p) (write_now p)).

(** The writes of [puts], in order, on a cache bounded at [capacity]. *)
Definition save_all_at (capacity : nat) (puts : list cache_write) (article_cache : Cache)
  : Cache :=
  fold_left
    (fun c p => save_to_cache_at capacity c (write_key p) (write_result p) (write_now p))
    puts article_cache.

(** The items of a cache are in the order of their timestamps. *)
Definition by_timestamp (p q : string * CacheItem.t) : Prop :=
  CacheItem.timestamp (snd p) <= CacheItem.timestamp (snd q).

(** Three writes of distinct articles at times 0, 10 and 20. *)
Definition sample_writes : list cache_write :=
  [ {| write_key := "a"; write_result := sample_record "first" None; write_now := 0 |};
    {| write_key := "b"; write_result := sample_record "second" None; write_now := 10 |};
    {| write_key := "c"; write_result := sample_record "third" None; write_now := 20 |} ].

Definition sample_link : string := "https://example.com/article".

Definition sample_action : ArticleAction := {| link := sample_link; cache := true |}.

(** A cache that holds the sample article, stored at time 0. *)
Definition sample_cache : Cache :=
  [(sample_link, CacheItem.mk (sample_record "Al at the fair" None) 0)].

(** ** The text routes *)

Module SummarizeAction.
Record t : Type := mk { text : string; max_length : option Z }.
(** The constraint [min_length=10] on [text], checked before a handler
    runs. *)
Definition valid (article : t) : Prop := (10 <= String.length (text article))%nat.
End SummarizeAction.

(** [s[:n]], for [n] of either sign. *)
Definition str_prefix (n : Z) (s : string) : string :=
  if (n <? 0)%Z then substring 0 (Z.to_nat (Z.of_nat (String.length s) + n)) s
  else substring 0 (Z.to_nat n) s.

Fixpoint contains_space (s : string) : bool :=
  match s with
  | EmptyString => false
  | String c r => Ascii.eqb c " " || contains_space r
  end.

(** What stands in front of the last space of a string that has one. *)
Fixpoint before_last_space (s : string) : string :=
  match s with
  | EmptyString => EmptyString
  | String c r => if contains_space r then String c (before_last_space r) else EmptyString
  end.

(** [s.rsplit(' ', 1)[0]] *)
Definition rsplit_space_head (s : string) : string :=
  if contains_space s then before_last_space s else s.

(** The truncation step of [summarize_text]. *)
Definition truncate_summary (max_length : option Z) (summary : string) : string :=
  match max_length with
  | Some m =>
      if negb (m =? 0)%Z && (m <? Z.of_nat (String.length summary))%Z
      then rsplit_space_head (str_prefix m summary) ++ "..."
      else summary
  | None => summary
  end.

(** [summarize_text(article)]; [summarize] is the outcome of the worker
    thread that sets the text on a scratch article, runs its [nlp()] and
    reads the summary. *)
Definition summarize_text (summarize : string -> outcome string)
  (article : SummarizeAction.t) : outcome string :=
  match summarize (SummarizeAction.text article) with
  | Returned summary =>
      Returned (truncate_summary (SummarizeAction.max_length article) summary)
  | Raised e =>
      Raised (HTTPException HTTP_500_INTERNAL_SERVER_ERROR
                ("Error summarizing text: " ++ str e))
  end.

(** [extract_tags(article)]; [fault] is an interruption of the worker
    thread. *)
Definition extract_tags (yake : YakeConfig -> string -> outcome (list (string * Q)))
  (fault : option exception) (article : SummarizeAction.t)
  : outcome (list KeywordResponse.t) :=
  match to_thread fault
          (fst (extract_keywords yake (SummarizeAction.text article) (keywords_config 3 5))) with
  | Returned keywords => Returned keywords
  | Raised e =>
      Raised (HTTPException HTTP_500_INTERNAL_SERVER_ERROR
                ("Error extracting tags: " ++ str e))
  end.

(** [analyze_sentiment(article)] *)
Definition analyze_sentiment (w : World) (article : SummarizeAction.t)
  : outcome SentimentResponse.t :=
  match polarity_scores w (SummarizeAction.text article) with
  | Returned sentiment => Returned (SentimentResponse_of sentiment)
  | Raised e =>
      Raised (HTTPException HTTP_500_INTERNAL_SERVER_ERROR
                ("Error analyzing sentiment: " ++ str e))
  end.

(** [extract_entities(article, filter_options)]; the two faults are
    interruptions of the two worker threads. *)
Definition extract_entities (lower : string -> string) (nlp : string -> Doc)
  (nlp_fault filter_fault : option exception)
  (article : SummarizeAction.t) (filter_options : EntityFilterOptions.t)
  : outcome (list EntityResponse.t) :=
  let failed e :=
    Raised (HTTPException HTTP_500_INTERNAL_SERVER_ERROR
              ("Error extracting entities: " ++ str e)) in
  match to_thread nlp_fault (analysed_document nlp (SummarizeAction.text article)) with
  | Raised e => failed e
  | Returned doc =>
      match to_thread filter_fault (filter_entities lower doc filter_options) with
      | Raised e => failed e
      | Returned entities => Returned entities
      end
  end.

(** An entity handed back to the filter as a span. *)
Definition span_of (e : EntityResponse.t) : Span.t :=
  Span.mk (EntityResponse.type e) (EntityResponse.text e).

(** ** The cache over a run of the service *)

(** What happens to the cache: a request to [process_article], or a
    scheduled [update_article_cache] that runs.  Each comes with the world
    and the clock readings of its moment. *)
Inductive event : Type :=
| Request (w : World) (t_start t_end now : Q) (article : ArticleAction)
| Refresh (w : World) (t_start t_end now : Q) (url cache_key : string).

Section Service.

Variable lower : string -> string.
Variable nlp : string -> Doc.
Variable md : string -> string.
Variable html_to_text : string -> string.
Variable md5_hexdigest : string -> string.

Definition cache_after (article_cache : Cache) (ev : event) : Cache :=
  match ev with
  | Request w t_start t_end now article =>
      snd (process_article lower nlp md html_to_text md5_hexdigest
             w t_start t_end now article article_cache)
  | Refresh w t_start t_end now url cache_key =>
      update_article_cache lower nlp md html_to_text w t_start t_end now url cache_key
        article_cache
  end.

Definition cache_after_all (events : list event) (article_cache : Cache) : Cache :=
  fold_left cache_after events article_cache.

(** The enrichment run an event would make. *)
Definition run_of (ev : event) : outcome ArticleResponse.t :=
  match ev with
  | Request w t_start t_end now article =>
      process_article_data lower nlp md html_to_text w t_start t_end (link article)
  | Refresh w t_start t_end now url cache_key =>
      process_article_data lower nlp md html_to_text w t_start t_end url
  end.

End Service.

(** The date a listed item is sorted on. *)
Definition listing_date (a : CachedArticleResponse.t) : Z :=
  match ArticleResponse.date (CachedArticleResponse.article a) with
  | Some publish_date => wall publish_date
  | None => CachedArticleResponse.cached_at a
  end.

(** [x] comes before [y] in [l]. *)
Definition precedes {A : Type} (x y : A) (l : list A) : Prop :=
  exists l1 l2 l3, l = l1 ++ x :: l2 ++ y :: l3.

(** Three writes of distinct articles, all at time 5. *)
Definition tied_writes : list cache_write :=
  [ {| write_key := "a"; write_result := sample_record "first" None; write_now := 5 |};
    {| write_key := "b"; write_result := sample_record "second" None; write_now := 5 |};
    {| write_key := "c"; write_result := sample_record "third" None; write_now := 5 |} ].

(** A page whose parser found two characters of text. *)
Definition thin_article : Article.t :=
  Article.mk "Thin" None "Hi"
    "<html><body><p>Al went to the fair.</p></body></html>"
    "<p>Hi</p>" "A thin page." [] None [] [].

Definition thin_world : World :=
  {| newspaper := fun _ => Returned thin_article;
     newspaper_nlp := fun _ => Returned "A thin page.";
     socials_extract := fun _ => Returned [];
     socialshares_fetch := fun _ _ => Returned [];
     polarity_scores := fun _ => Raised (Exception "no lexicon");
     displacy_render := fun _ => Returned "";
     yake := fun _ _ => Raised (Exception "no stopwords");
     socid_extract := fun _ => Returned [];
     entities_fault := None;
     keywords_fault := None;
     nlp_fault := None;
     md_fault := None;
     response_fault := None |}.

(** The record of a run on the sample world, from time 0 to time 1. *)
Definition sample_enrichment : ArticleResponse.t :=
  ArticleResponse.mk "Al at the fair" None (Article.text sample_article)
    "Al went to the fair." "<p>Al went to the fair.</p>" "Al went to the fair."
    [KeywordResponse.mk "fair" (1 # 10)] ["Al"] None []
    [EntityResponse.mk "PERSON" "Al"] []
    [("twitter", AnyList ["https://twitter.com/al"])]
    (SentimentResponse.mk (1 # 2) (1 # 4) 0 (3 # 4))
    [("uid", AnyStr "al")] [("reddit", AnyInt 3)] (1 - 0).

(** ** The lazily loaded components *)

Section Components.

Variables Model Analyzer : Type.
(** [spacy.load("en_core_web_md")] at its [i]-th call, counted from 0. *)
Variable spacy_load : nat -> outcome Model.
(** [SentimentIntensityAnalyzer()] at its [i]-th call. *)
Variable new_analyzer : nat -> outcome Analyzer.

(** The one instance [__new__] hands out, with the number of calls made so
    far to each loader. *)
Record NLPComponents : Type := {
  _nlp : option Model;
  _sentiment_analyzer : option Analyzer;
  spacy_loads : nat;
  analyzer_inits : nat
}.

Definition fresh_components : NLPComponents :=
  {| _nlp := None; _sentiment_analyzer := None; spacy_loads := 0; analyzer_inits := 0 |}.

(** The property [nlp]. *)
Definition nlp_property (self : NLPComponents) : outcome Model * NLPComponents :=
  match _nlp self with
  | Some model => (Returned model, self)
  | None =>
      match spacy_load (spacy_loads self) with
      | Returned model =>
          (Returned model,
           {| _nlp := Some model; _sentiment_analyzer := _sentiment_analyzer self;
              spacy_loads := S (spacy_loads self); analyzer_inits := analyzer_inits self |})
      | Raised e =>
          (Raised e,
           {| _nlp := None; _sentiment_analyzer := _sentiment_analyzer self;
              spacy_loads := S (spacy_loads self); analyzer_inits := analyzer_inits self |})
      end
  end.

(** The property [sentiment_analyzer]. *)
Definition sentiment_analyzer_property (self : NLPComponents)
  : outcome Analyzer * NLPComponents :=
  match _sentiment_analyzer self with
  | Some analyzer => (Returned analyzer, self)
  | None =>
      match new_analyzer (analyzer_inits self) with
      | Returned analyzer =>
          (Returned analyzer,
           {| _nlp := _nlp self; _sentiment_analyzer := Some analyzer;
              spacy_loads := spacy_loads self; analyzer_inits := S (analyzer_inits self) |})
      | Raised e =>
          (Raised e,
           {| _nlp := _nlp self; _sentiment_analyzer := None;
              spacy_loads := spacy_loads self; analyzer_inits := S (analyzer_inits self) |})
      end
  end.

(** The start-up half of [lifespan]: both properties are read once. *)
Definition lifespan_startup (self : NLPComponents) : outcome unit * NLPComponents :=
  match nlp_property self with
  | (Raised e, self) => (Raised e, self)
  | (Returned _, self) =>
      match sentiment_analyzer_property self with
      | (Raised e, self) => (Raised e, self)
      | (Returned _, self) => (Returned tt, self)
      end
  end.

(** A read of one of the two properties, by a later request. *)
Inductive component_read : Type :=
| read_nlp
| read_sentiment_analyzer.

Definition components_after (self : NLPComponents) (r : component_read) : NLPComponents :=
  match r with
  | read_nlp => snd (nlp_property self)
  | read_sentiment_analyzer => snd (sentiment_analyzer_property self)
  end.

Definition components_after_all (reads : list component_read) (self : NLPComponents)
  : NLPComponents :=
  fold_left components_after reads self.

End Components.

Arguments _nlp {Model Analyzer} _.
Arguments _sentiment_analyzer {Model Analyzer} _.
Arguments spacy_loads {Model Analyzer} _.
Arguments analyzer_inits {Model Analyzer} _.
Arguments fresh_components {Model Analyzer}.
Arguments nlp_property {Model Analyzer} spacy_load self.
Arguments sentiment_analyzer_property {Model Analyzer} new_analyzer self.
Arguments lifespan_startup {Model Analyzer} spacy_load new_analyzer self.
Arguments components_after {Model Analyzer} spacy_load new_analyzer self r.
Arguments components_after_all {Model Analyzer} spacy_load new_analyzer reads self.

(** The sample world, except that the spaCy pipeline raises. *)
Definition no_model_world : World :=
  Build_World (newspaper sample_world) (newspaper_nlp sample_world)
    (socials_extract sample_world) (socialshares_fetch sample_world)
    (polarity_scores sample_world) (displacy_render sample_world)
    (yake sample_world) (socid_extract sample_world) None None
    (Some (Exception "Can't find model 'en_core_web_md'")) None None.

(** A page with five characters of text. *)
Definition tiny_article : Article.t :=
  Article.mk "Tiny" None "Hello" "<p>Hello</p>" "<p>Hello</p>" "A tiny page." [] None [] [].

Definition tiny_world (fault : option exception) : World :=
  {| newspaper := fun _ => Returned tiny_article;
     newspaper_nlp := fun _ => Returned "A tiny page.";
     socials_extract := fun _ => Returned [];
     socialshares_fetch := fun _ _ => Returned [];
     polarity_scores := fun _ => Returned zero_scores;
     displacy_render := fun _ => Returned "";
     yake := fun _ _ => Returned [("never", 1)];
     socid_extract := fun _ => Returned [];
     entities_fault := None;
     keywords_fault := None;
     nlp_fault := fault;
     md_fault := None;
     response_fault := None |}.

Definition tiny_html_to_text (html : string) : string := "Hello".

(** * Properties *)

(** ** Strings and pairs *)

Lemma pair_eqb_eq (a b : string * string) : pair_eqb a b = true <-> a = b.
Proof.
  destruct a as [a1 a2], b as [b1 b2]; unfold pair_eqb; simpl.
  rewrite andb_true_iff, !String.eqb_eq. split.
  - intros [-> ->]; reflexivity.
  - intros H; inversion H; auto.
Qed.

Lemma mem_string_In (s : string) (l : list string) : mem_string s l = true <-> In s l.
Proof.
  unfold mem_string. rewrite existsb_exists. split.
  - intros [x [Hx E]]. apply String.eqb_eq in E. subst; assumption.
  - intros H. exists s. split; [assumption | apply String.eqb_refl].
Qed.

(** ** The entity filter *)

Section EntityFilterFacts.

Variable lower : string -> string.

Local Abbreviation key := (entity_key lower).
Local Abbreviation same_key_in := (same_key_in lower).

Lemma existsb_same_key (e : EntityResponse.t) (l : list EntityResponse.t) :
  existsb (fun y => pair_eqb (key e) (key y)) l = true <-> same_key_in e l.
Proof.
  rewrite existsb_exists. split; intros [y [Hy E]]; exists y; split; auto.
  - apply pair_eqb_eq in E. congruence.
  - apply pair_eqb_eq. congruence.
Qed.

(** The loop of the source and the wording of the specification agree, when
    [seen] holds the keys of the entities already passed. *)
Lemma dedup_loop_first_occurrences (entities : list EntityResponse.t) :
  forall seen unique_entities earlier,
    (forall k, mem_pair k seen = existsb (fun y => pair_eqb k (key y)) earlier) ->
    dedup_loop lower seen unique_entities entities
    = unique_entities ++ first_occurrences lower earlier entities.
Proof.
  induction entities as [|e rest IH]; intros seen uniq earlier Inv; simpl.
  - symmetry; apply app_nil_r.
  - fold key. rewrite (Inv (key e)).
    destruct (existsb (fun y => pair_eqb (key e) (key y)) earlier) eqn:Seen.
    + apply IH. intros k. rewrite existsb_app, Inv. simpl.
      destruct (pair_eqb k (key e)) eqn:E; [|rewrite !orb_false_r; reflexivity].
      apply pair_eqb_eq in E. subst k. rewrite Seen. reflexivity.
    + rewrite (IH (key e :: seen) (uniq ++ [e]) (earlier ++ [e])).
      * rewrite <- app_assoc. reflexivity.
      * intros k. rewrite existsb_app. simpl. rewrite Inv, orb_false_r.
        apply orb_comm.
Qed.

Lemma first_occurrences_subsequence (l : list EntityResponse.t) :
  forall earlier, subsequence (first_occurrences lower earlier l) l.
Proof.
  induction l as [|e rest IH]; intros earlier; simpl.
  - constructor.
  - destruct (existsb _ earlier); constructor; apply IH.
Qed.

(** No survivor repeats the key of an entity already passed. *)
Lemma first_occurrences_fresh (l : list EntityResponse.t) :
  forall earlier e, In e (first_occurrences lower earlier l) -> ~ same_key_in e earlier.
Proof.
  induction l as [|x rest IH]; intros earlier e; simpl; [tauto|].
  fold key.
  destruct (existsb (fun y => pair_eqb (key x) (key y)) earlier) eqn:Seen.
  - intros He [y [Hy E]]. apply (IH _ _ He). exists y. split; [|assumption].
    apply in_or_app; left; assumption.
  - intros [<- | He].
    + intros Hs. apply existsb_same_key in Hs. congruence.
    + intros [y [Hy E]]. apply (IH _ _ He). exists y. split; [|assumption].
      apply in_or_app; left; assumption.
Qed.

Lemma first_occurrences_NoDup (l : list EntityResponse.t) :
  forall earlier, NoDup (map key (first_occurrences lower earlier l)).
Proof.
  induction l as [|x rest IH]; intros earlier; simpl; [constructor|].
  destruct (existsb _ earlier); [apply IH|].
  simpl. constructor; [|apply IH].
  intros Hin. apply in_map_iff in Hin. destruct Hin as [e [E He]].
  apply (first_occurrences_fresh _ _ _ He).
  exists x. split; [apply in_or_app; right; left; reflexivity | congruence].
Qed.

(** Every entity is represented, by itself or by an earlier one. *)
Lemma first_occurrences_covers (l : list EntityResponse.t) :
  forall earlier e, In e l ->
    same_key_in e earlier \/ same_key_in e (first_occurrences lower earlier l).
Proof.
  induction l as [|x rest IH]; intros earlier e; simpl; [tauto|].
  fold key. intros [-> | He].
  - destruct (existsb (fun y => pair_eqb (key e) (key y)) earlier) eqn:Seen.
    + left. apply existsb_same_key. assumption.
    + right. exists e. split; [left|]; reflexivity.
  - destruct (IH (earlier ++ [x]) e He) as [[y [Hy E]] | [y [Hy E]]].
    + apply in_app_or in Hy. destruct Hy as [Hy | [<- | []]].
      * left. exists y; auto.
      * destruct (existsb (fun y => pair_eqb (key x) (key y)) earlier) eqn:Seen.
        -- left. apply existsb_same_key in Seen. destruct Seen as [z [Hz Ez]].
           exists z. split; [assumption | congruence].
        -- right. exists x. split; [left; reflexivity | assumption].
    + right. exists y. split; [|assumption].
      destruct (existsb _ earlier); [|right]; assumption.
Qed.

(** The first entity with a given key survives. *)
Lemma first_occurrences_keeps_first (l1 l2 : list EntityResponse.t) (e : EntityResponse.t) :
  forall earlier,
    ~ same_key_in e (earlier ++ l1) ->
    In e (first_occurrences lower earlier (l1 ++ e :: l2)).
Proof.
  induction l1 as [|x l1 IH]; intros earlier Hfresh; simpl.
  - fold key.
    destruct (existsb (fun y => pair_eqb (key e) (key y)) earlier) eqn:Seen.
    + exfalso. apply Hfresh. rewrite app_nil_r. apply existsb_same_key. assumption.
    + left; reflexivity.
  - assert (In e (first_occurrences lower (earlier ++ [x]) (l1 ++ e :: l2))) as H.
    { apply IH. rewrite <- app_assoc. exact Hfresh. }
    destruct (existsb _ earlier); [|right]; assumption.
Qed.

End EntityFilterFacts.

(** C6. The entity filter returns exactly the entities that pass the type
    and length tests, one per pair (type, lower-cased text), the first of
    each pair, in their original order: it agrees with the filter as the
    specification words it, its output is a subsequence of the passing
    entities without a repeated key, every passing entity is represented and
    a first occurrence is never dropped.  It is a total function, and on the
    scenario of the specification it yields the single entity PERSON "Al". *)
Theorem filter_entities_filters_and_deduplicates :
  (forall (lower : string -> string) (doc : Doc) (options : EntityFilterOptions.t),
      let passing :=
        map (fun ent => EntityResponse.mk (Span.label_ ent) (Span.text ent))
            (filter (entity_kept options) (ents doc)) in
      let out := filter_entities lower doc options in
      out = filter_spec lower (ents doc)
              (EntityFilterOptions.exclude_types options)
              (EntityFilterOptions.min_length options)
      /\ (forall e, In e passing <->
            exists ent, In ent (ents doc)
              /\ e = EntityResponse.mk (Span.label_ ent) (Span.text ent)
              /\ ~ In (Span.label_ ent) (EntityFilterOptions.exclude_types options)
              /\ (EntityFilterOptions.min_length options
                  <= Z.of_nat (String.length (Span.text ent)))%Z)
      /\ subsequence out passing
      /\ NoDup (map (entity_key lower) out)
      /\ (forall e, In e passing -> same_key_in lower e out)
      /\ (forall l1 e l2, passing = l1 ++ e :: l2 -> ~ same_key_in lower e l1 -> In e out))
  /\ filter_entities str_lower
       {| ents := [Span.mk "DATE" "2023"; Span.mk "PERSON" "Al"; Span.mk "PERSON" "A"] |}
       (EntityFilterOptions.mk ["DATE"] 2)
     = [EntityResponse.mk "PERSON" "Al"].
Proof.
  split; [|reflexivity].
  intros lower doc options passing out.
  assert (out = first_occurrences lower [] passing) as Eout.
  { unfold out, filter_entities. fold passing.
    rewrite (dedup_loop_first_occurrences lower passing [] [] []); [reflexivity|].
    reflexivity. }
  split; [exact Eout|]. split; [|rewrite Eout; repeat split].
  - intros e. unfold passing. rewrite in_map_iff. split.
    + intros [ent [E Hent]]. apply filter_In in Hent. destruct Hent as [Hin Hk].
      unfold entity_kept in Hk. apply andb_true_iff in Hk. destruct Hk as [Ht Hl].
      exists ent. repeat split; auto.
      * intros Hex. apply mem_string_In in Hex. rewrite Hex in Ht. discriminate.
      * apply Z.leb_le. assumption.
    + intros [ent [Hin [E [Ht Hl]]]]. exists ent. split; [auto|].
      apply filter_In. split; [assumption|]. unfold entity_kept.
      apply andb_true_iff. split; [|apply Z.leb_le; assumption].
      destruct (mem_string (Span.label_ ent) (EntityFilterOptions.exclude_types options)) eqn:M;
        [|reflexivity].
      apply mem_string_In in M. contradiction.
  - apply first_occurrences_subsequence.
  - apply first_occurrences_NoDup.
  - intros e He. destruct (first_occurrences_covers lower passing [] e He) as [[y [[] _]] | H].
    exact H.
  - intros l1 e l2 E Hfresh. rewrite E. apply first_occurrences_keeps_first. exact Hfresh.
Qed.

(** ** Staleness *)

Lemma older_than_1_hour_spec (now : Q) (cached_item : CacheItem.t) :
  older_than_1_hour now cached_item = true <-> 3600 < now - CacheItem.timestamp cached_item.
Proof.
  unfold older_than_1_hour. rewrite negb_true_iff.
  destruct (Qle_bool (now - CacheItem.timestamp cached_item) 3600) eqn:E.
  - apply Qle_bool_iff in E. split; [discriminate|]. intros H. exfalso. lra.
  - split; [intros _|reflexivity].
    apply Qnot_le_lt. intros H. apply Qle_bool_iff in H. congruence.
Qed.

(** C7. A cached item is treated as stale, that is a refresh is scheduled
    for it, exactly when [now - timestamp > 3600]; at an age of exactly 3600
    seconds it is fresh; and an item stale at [now] is stale at every later
    time. *)
Theorem stale_iff_older_than_ttl_and_monotone :
  (forall now cached_item,
      older_than_1_hour now cached_item = true
      <-> 3600 < now - CacheItem.timestamp cached_item)
  /\ (forall now cached_item,
        now - CacheItem.timestamp cached_item == 3600 ->
        older_than_1_hour now cached_item = false)
  /\ (forall now now' cached_item,
        now < now' ->
        older_than_1_hour now cached_item = true ->
        older_than_1_hour now' cached_item = true)
  /\ (forall lower nlp md html_to_text md5_hexdigest w t_start t_end now article
             article_cache cached_item,
        cache article = true ->
        dict_get article_cache (get_cache_key md5_hexdigest (link article)) = Some cached_item ->
        (snd (fst (process_article lower nlp md html_to_text md5_hexdigest
                     w t_start t_end now article article_cache))
         = [update_article_cache_task (link article)
              (get_cache_key md5_hexdigest (link article))]
         <-> 3600 < now - CacheItem.timestamp cached_item)).
Proof.
  split; [exact older_than_1_hour_spec|]. split; [|split].
  - intros now item E.
    destruct (older_than_1_hour now item) eqn:O; [|reflexivity].
    apply older_than_1_hour_spec in O. exfalso. lra.
  - intros now now' item Hlt O. apply older_than_1_hour_spec in O.
    apply older_than_1_hour_spec. lra.
  - intros lower nlp md h2t md5 w ts te now article article_cache item Hc Hget.
    unfold process_article. rewrite Hc, Hget. simpl.
    rewrite <- older_than_1_hour_spec.
    destruct (older_than_1_hour now item); split; auto; discriminate.
Qed.

(** ** Keyword extraction *)

(** C8, as the code has it. On a text that is empty or shorter than 10
    characters [extract_keywords] returns the empty list and makes no call
    to the extractor.  So in a run whose fetched text is that short the
    keyword task, unless its thread is interrupted, delivers the empty list;
    every record such a run returns has an empty keyword list; and the run
    returns a record when the spaCy pipeline, [markdownify] and the
    constructors of the response do not raise. *)
Theorem short_text_has_no_keywords :
  (forall yake text cfg,
      text = "" \/ (String.length text < 10)%nat ->
      extract_keywords yake text cfg = ([], []))
  /\ (forall lower nlp md html_to_text w t_start t_end link article,
        fetch_article html_to_text w link = Returned article ->
        (String.length (Article.text article) < 10)%nat ->
        (keywords_fault w = None ->
         results_5 (gather_tasks lower w link (Article.text article)
                      (analysed_document nlp (Article.text article)))
         = Returned [])
        /\ (forall record,
              process_article_data lower nlp md html_to_text w t_start t_end link
              = Returned record ->
              ArticleResponse.keywords record = [])
        /\ (nlp_fault w = None -> md_fault w = None -> response_fault w = None ->
            exists record,
              process_article_data lower nlp md html_to_text w t_start t_end link
              = Returned record
              /\ ArticleResponse.keywords record = [])).
Proof.
  assert (forall yake text cfg,
             text = "" \/ (String.length text < 10)%nat ->
             extract_keywords yake text cfg = ([], [])) as Short.
  { intros yake text cfg H. unfold extract_keywords.
    assert ((String.length text <? 10)%nat = true) as L.
    { apply Nat.ltb_lt. destruct H as [-> | H]; [simpl; lia | exact H]. }
    rewrite L, orb_true_r. reflexivity. }
  split; [exact Short|].
  intros lower nlp md h2t w ts te link article Hf Hlen.
  assert (forall record,
             process_article_data lower nlp md h2t w ts te link = Returned record ->
             ArticleResponse.keywords record = []) as Hempty.
  { intros record Hrun. unfold process_article_data in Hrun. rewrite Hf in Hrun.
    destruct (nlp_fault w); [discriminate|].
    destruct (md_fault w); [discriminate|].
    destruct (response_fault w); [discriminate|].
    simpl in Hrun. inversion Hrun; subst record; clear Hrun. simpl.
    rewrite Short by (right; exact Hlen).
    destruct (keywords_fault w); reflexivity. }
  split; [|split; [exact Hempty|]].
  - intros Hk. simpl. rewrite Hk, Short by (right; exact Hlen). reflexivity.
  - intros Hn Hm Hr.
    assert (exists record,
               process_article_data lower nlp md h2t w ts te link = Returned record)
      as [record Hrun].
    { unfold process_article_data. rewrite Hf, Hn, Hm, Hr. simpl. eexists. reflexivity. }
    exists record. split; [exact Hrun | exact (Hempty record Hrun)].
Qed.

(** C8, as stated, fails: a run whose fetched text has 5 characters raises
    when the spaCy pipeline raises, and the request gets an HTTP 500; the
    extractor is not the cause, the keyword list would have been empty. *)
Lemma short_text_run_can_still_fail :
  let w := tiny_world (Some (Exception "Can't find model 'en_core_web_md'")) in
  fetch_article tiny_html_to_text w sample_link = Returned tiny_article
  /\ String.length (Article.text tiny_article) = 5%nat
  /\ process_article_data str_lower sample_nlp sample_md tiny_html_to_text w 0 1 sample_link
     = Raised (Exception "Can't find model 'en_core_web_md'")
  /\ process_article str_lower sample_nlp sample_md tiny_html_to_text sample_md5
       w 0 1 1 sample_action []
     = (Raised (HTTPException 500
                  "Error processing article: Can't find model 'en_core_web_md'"),
        [], []).
Proof. repeat split. Qed.

Lemma short_text_witness :
  exists record,
    process_article_data str_lower sample_nlp sample_md tiny_html_to_text
      (tiny_world None) 0 1 sample_link
    = Returned record
    /\ ArticleResponse.keywords record = [].
Proof.
  apply (proj2 (proj2 (proj2 short_text_has_no_keywords str_lower sample_nlp sample_md
                         tiny_html_to_text (tiny_world None) 0 1 sample_link tiny_article
                         eq_refl ltac:(simpl; lia)))
           eq_refl eq_refl eq_refl).
Defined.

(** ** The enrichment run *)

Section PipelineFacts.

Variable lower : string -> string.
Variable nlp : string -> Doc.
Variable md : string -> string.
Variable html_to_text : string -> string.

Local Abbreviation run := (process_article_data lower nlp md html_to_text).

(** What a run raises after its fetch returned is what one of the three
    calls outside the [try] raised; no exception of a task is among them. *)
Lemma process_article_data_Raised w t_start t_end link article e :
  fetch_article html_to_text w link = Returned article ->
  run w t_start t_end link = Raised e ->
  nlp_fault w = Some e \/ md_fault w = Some e \/ response_fault w = Some e.
Proof.
  intros Hf. unfold process_article_data. rewrite Hf.
  destruct (nlp_fault w) as [e1|]; simpl; [intros H; inversion H; auto|].
  destruct (md_fault w) as [e2|]; simpl; [intros H; inversion H; auto|].
  destruct (response_fault w) as [e3|]; simpl; [intros H; inversion H; auto|].
  discriminate.
Qed.

(** What [fetch_article] raises is its 422 error. *)
Lemma fetch_article_Raised w link e :
  fetch_article html_to_text w link = Raised e ->
  exists cause,
    e = HTTPException HTTP_422_UNPROCESSABLE_ENTITY ("Could not fetch article: " ++ str cause).
Proof.
  unfold fetch_article. destruct (newspaper w link) as [a | cause].
  - match goal with |- context [newspaper_nlp w ?x] => destruct (newspaper_nlp w x) as [s | cause] end;
      destruct (String.eqb _ ""); intros H; inversion H; subst; eexists; reflexivity.
  - intros H; inversion H; subst; eexists; reflexivity.
Qed.

(** Forcing a task to fail leaves the fetch step alone. *)
Lemma fetch_article_fail_task t e w link :
  fetch_article html_to_text (fail_task t e w) link = fetch_article html_to_text w link.
Proof. destruct t; reflexivity. Qed.

End PipelineFacts.

(** C1, as the code has it. Whenever the fetch step succeeds and the three
    calls outside the [try] (the spaCy pipeline, [markdownify], the
    constructors of the response) do not raise, [process_article_data]
    returns a record, whatever the seven analysis tasks did: the document
    fields come from the fetched article, each task that raised contributes
    its default (empty list, empty dictionary, all-zero scores, empty string
    for the rendered markup local) and each task that returned contributes
    its payload.  No exception of a task leaves the function: what a run
    raises after its fetch is what one of those three calls raised. *)
Theorem analysis_failures_never_surface :
  forall lower nlp md html_to_text w t_start t_end link article,
    fetch_article html_to_text w link = Returned article ->
    let results :=
      gather_tasks lower w link (Article.text article)
        (analysed_document nlp (Article.text article)) in
    (nlp_fault w = None -> md_fault w = None -> response_fault w = None ->
     exists record,
      process_article_data lower nlp md html_to_text w t_start t_end link = Returned record
      /\ ArticleResponse.title record = Article.title article
      /\ ArticleResponse.text record = Article.text article
      /\ ArticleResponse.html record = Article.article_html article
      /\ ((forall e, results_0 results = Raised e -> ArticleResponse.entities record = [])
          /\ (forall v, results_0 results = Returned v -> ArticleResponse.entities record = v))
      /\ ((forall e, results_1 results = Raised e -> ArticleResponse.social_accounts record = [])
          /\ (forall v, results_1 results = Returned v ->
                ArticleResponse.social_accounts record = v))
      /\ ((forall e, results_2 results = Raised e -> ArticleResponse.social_shares record = [])
          /\ (forall v, results_2 results = Returned v ->
                ArticleResponse.social_shares record = v))
      /\ ((forall e, results_3 results = Raised e ->
             ArticleResponse.sentiment record = SentimentResponse.mk 0 0 0 0)
          /\ (forall v, results_3 results = Returned v ->
                ArticleResponse.sentiment record = SentimentResponse_of v))
      /\ ((forall e, results_4 results = Raised e -> spacy_html (process_results results) = "")
          /\ (forall v, results_4 results = Returned v ->
                spacy_html (process_results results) = v))
      /\ ((forall e, results_5 results = Raised e -> ArticleResponse.keywords record = [])
          /\ (forall v, results_5 results = Returned v -> ArticleResponse.keywords record = v))
      /\ ((forall e, results_6 results = Raised e -> ArticleResponse.accounts record = [])
          /\ (forall v, results_6 results = Returned v -> ArticleResponse.accounts record = v)))
    /\ (forall e,
          process_article_data lower nlp md html_to_text w t_start t_end link = Raised e ->
          nlp_fault w = Some e \/ md_fault w = Some e \/ response_fault w = Some e).
Proof.
  intros lower nlp md h2t w ts te link article Hf results.
  split.
  - intros Hn Hm Hr.
    unfold process_article_data. rewrite Hf, Hn, Hm, Hr. fold results.
    eexists. split; [reflexivity|]. simpl.
    repeat split; intros x Hx; rewrite Hx; reflexivity.
  - intros e. apply process_article_data_Raised with (article := article). exact Hf.
Qed.

(** C1, as stated, fails: the fetch succeeds and no analysis task fails, yet
    the run raises, because the spaCy pipeline raised before the tasks were
    dispatched, and the request gets an HTTP 500. *)
Lemma fetched_run_can_still_fail :
  fetch_article sample_html_to_text no_model_world sample_link = Returned sample_article
  /\ failed_tasks
       (gather_tasks str_lower no_model_world sample_link (Article.text sample_article)
          sample_doc)
     = []
  /\ process_article_data str_lower sample_nlp sample_md sample_html_to_text
       no_model_world 0 1 sample_link
     = Raised (Exception "Can't find model 'en_core_web_md'")
  /\ process_article str_lower sample_nlp sample_md sample_html_to_text sample_md5
       no_model_world 0 1 1 sample_action []
     = (Raised (HTTPException 500
                  "Error processing article: Can't find model 'en_core_web_md'"),
        [], []).
Proof. repeat split. Qed.

(** X23. Forcing one analysis task to fail changes the record of a run in
    the field that task feeds, which takes its default, and in no other
    field; the tasks that feed a field are entities, social accounts, social
    shares, sentiment, keywords and accounts, and the payload of the
    rendering task feeds none.  When no task failed before, exactly
    the forced one fails afterwards. *)
Theorem single_failure_defaults_only_its_field :
  forall lower nlp md html_to_text w t_start t_end link record t e,
    process_article_data lower nlp md html_to_text w t_start t_end link = Returned record ->
    process_article_data lower nlp md html_to_text (fail_task t e w) t_start t_end link
    = Returned (with_default t record)
    /\ with_default SpacyHtmlTask record = record
    /\ (forall article,
          fetch_article html_to_text w link = Returned article ->
          let text := Article.text article in
          let doc := analysed_document nlp text in
          failed_tasks (gather_tasks lower w link text doc) = [] ->
          failed_tasks (gather_tasks lower (fail_task t e w) link text doc) = [t]).
Proof.
  intros lower nlp md h2t w ts te link record t e Hrun.
  split; [|split].
  - unfold process_article_data in *.
    rewrite fetch_article_fail_task.
    destruct (fetch_article h2t w link) as [article|]; [|discriminate].
    destruct t; simpl in *;
      destruct (nlp_fault w); try discriminate;
      destruct (md_fault w); try discriminate;
      destruct (response_fault w); try discriminate;
      simpl in *; inversion Hrun; subst record; reflexivity.
  - destruct record; reflexivity.
  - intros article _ text doc Hnone.
    unfold failed_tasks in *.
    destruct t; simpl in *;
      destruct (entities_fault w), (socials_extract w link),
        (socialshares_fetch w link SOCIAL_PLATFORMS), (polarity_scores w text),
        (displacy_render w doc), (keywords_fault w), (socid_extract w text);
      simpl in *; try discriminate; reflexivity.
Qed.

(** C3. The code at a run in which only the rendering task fails: the local
    [spacy_html] takes its default, the empty string, but no field of the
    record carries it; the [html] field is the article's own HTML, no string
    field is empty, and the record is the one of the run in which the task
    returned. *)
Lemma spacy_html_failure_defaults_no_field :
  let w := fail_task SpacyHtmlTask (Exception "render failed") sample_world in
  let link := "https://example.com/article" in
  exists record,
    process_article_data str_lower sample_nlp sample_md sample_html_to_text w 0 1 link
    = Returned record
    /\ failed_tasks
         (gather_tasks str_lower w link (Article.text sample_article) sample_doc)
       = [SpacyHtmlTask]
    /\ spacy_html
         (process_results
            (gather_tasks str_lower w link (Article.text sample_article) sample_doc))
       = ""
    /\ ArticleResponse.html record = "<p>Al went to the fair.</p>"
    /\ ~ In "" (string_fields record)
    /\ process_article_data str_lower sample_nlp sample_md sample_html_to_text
         sample_world 0 1 link
       = Returned record.
Proof.
  eexists. split; [reflexivity|]. split; [reflexivity|]. split; [reflexivity|].
  split; [reflexivity|]. split; [|reflexivity].
  simpl. intros H. repeat (destruct H as [H | H]; [discriminate|]). exact H.
Qed.

Lemma single_failure_witness :
  process_article_data str_lower sample_nlp sample_md sample_html_to_text
    (fail_task SentimentTask (Exception "no lexicon") sample_world) 0 1
    "https://example.com/article"
  = Returned
      (with_default SentimentTask
         (ArticleResponse.mk "Al at the fair" None (Article.text sample_article)
            "Al went to the fair." "<p>Al went to the fair.</p>" "Al went to the fair."
            [KeywordResponse.mk "fair" (1 # 10)] ["Al"] None []
            [EntityResponse.mk "PERSON" "Al"] []
            [("twitter", AnyList ["https://twitter.com/al"])]
            (SentimentResponse.mk (1 # 2) (1 # 4) 0 (3 # 4))
            [("uid", AnyStr "al")] [("reddit", AnyInt 3)] (1 - 0))).
Proof.
  apply (single_failure_defaults_only_its_field str_lower sample_nlp sample_md
           sample_html_to_text sample_world 0 1 "https://example.com/article").
  reflexivity.
Defined.

Lemma analysis_failures_witness :
  exists record,
    process_article_data str_lower sample_nlp sample_md sample_html_to_text
      (fail_task KeywordsTask (Exception "worker died")
         (fail_task AccountsTask (Exception "timeout") sample_world))
      0 1 "https://example.com/article"
    = Returned record
    /\ ArticleResponse.keywords record = []
    /\ ArticleResponse.accounts record = [].
Proof.
  destruct (proj1 (analysis_failures_never_surface str_lower sample_nlp sample_md
                     sample_html_to_text
                     (fail_task KeywordsTask (Exception "worker died")
                        (fail_task AccountsTask (Exception "timeout") sample_world))
                     0 1 "https://example.com/article" sample_article eq_refl)
              eq_refl eq_refl eq_refl)
    as [record [Hrun [_ [_ [_ [_ [_ [_ [_ [_ [[Hk _] [Ha _]]]]]]]]]]]].
  exists record. split; [exact Hrun|]. split.
  - exact (Hk (Exception "worker died") eq_refl).
  - exact (Ha (Exception "timeout") eq_refl).
Defined.

(** ** Stable sorting *)

Lemma Permutation_filter {A : Type} (f : A -> bool) (l l' : list A) :
  Permutation l l' -> Permutation (filter f l) (filter f l').
Proof.
  induction 1; simpl.
  - constructor.
  - destruct (f x); [constructor|]; assumption.
  - destruct (f x), (f y); try apply Permutation_refl. apply perm_swap.
  - eapply Permutation_trans; eassumption.
Qed.

Lemma StronglySorted_app_inv {A : Type} (R : A -> A -> Prop) (l1 l2 : list A) :
  StronglySorted R (l1 ++ l2) ->
  forall a b, In a l1 -> In b l2 -> R a b.
Proof.
  induction l1 as [|x l1 IH]; simpl; intros S a b Ha Hb; [contradiction|].
  apply StronglySorted_inv in S. destruct S as [S F].
  destruct Ha as [<- | Ha].
  - rewrite Forall_forall in F. apply F. apply in_or_app. right; assumption.
  - apply IH; assumption.
Qed.

Section StableSortFacts.

Variables A K : Type.
Variable le : K -> K -> bool.
Variable key : A -> K.

Hypothesis le_total : forall a b, le a b = true \/ le b a = true.
Hypothesis le_trans : forall a b c, le a b = true -> le b c = true -> le a c = true.

Local Abbreviation before := (fun x y => le (key x) (key y) = true).

Lemma insert_stable_Permutation x l :
  Permutation (insert_stable le key x l) (x :: l).
Proof.
  induction l as [|y l IH]; simpl; [apply Permutation_refl|].
  destruct (le (key x) (key y)); [apply Permutation_refl|].
  eapply Permutation_trans; [apply perm_skip, IH | apply perm_swap].
Qed.

Lemma sort_stable_Permutation l : Permutation (sort_stable le key l) l.
Proof.
  induction l as [|x l IH]; simpl; [constructor|].
  eapply Permutation_trans; [apply insert_stable_Permutation|].
  constructor; assumption.
Qed.

Lemma insert_stable_StronglySorted x l :
  StronglySorted before l -> StronglySorted before (insert_stable le key x l).
Proof.
  induction 1 as [|y l S IH F]; simpl.
  - repeat constructor.
  - destruct (le (key x) (key y)) eqn:E.
    + constructor; [constructor; assumption|].
      constructor; [exact E|].
      rewrite Forall_forall in *. intros z Hz. eapply le_trans; [exact E | apply F, Hz].
    + constructor; [exact IH|].
      assert (le (key y) (key x) = true) as E'.
      { destruct (le_total (key x) (key y)); congruence. }
      rewrite Forall_forall in *. intros z Hz.
      apply (Permutation_in _ (insert_stable_Permutation x l)) in Hz.
      destruct Hz as [<- | Hz]; [exact E' | apply F, Hz].
Qed.

Lemma sort_stable_StronglySorted l : StronglySorted before (sort_stable le key l).
Proof.
  induction l as [|x l IH]; simpl; [constructor|].
  apply insert_stable_StronglySorted, IH.
Qed.

(** A list already in order is left as it is. *)
Lemma sort_stable_sorted l : StronglySorted before l -> sort_stable le key l = l.
Proof.
  induction 1 as [|x l S IH F]; simpl; [reflexivity|].
  rewrite IH. destruct l as [|y l]; simpl; [reflexivity|].
  inversion F as [|? ? E ?]; subst. rewrite E. reflexivity.
Qed.

(** An element that comes last and may follow every other one stays last. *)
Lemma insert_stable_app_last y s x :
  le (key y) (key x) = true ->
  insert_stable le key y (s ++ [x]) = insert_stable le key y s ++ [x].
Proof.
  intros E. induction s as [|z s IH]; simpl.
  - rewrite E. reflexivity.
  - destruct (le (key y) (key z)); [reflexivity|]. rewrite IH. reflexivity.
Qed.

Lemma sort_stable_app_last l x :
  (forall y, In y l -> le (key y) (key x) = true) ->
  sort_stable le key (l ++ [x]) = sort_stable le key l ++ [x].
Proof.
  induction l as [|y l IH]; intros H; simpl; [reflexivity|].
  rewrite IH by (intros z Hz; apply H; right; assumption).
  apply insert_stable_app_last. apply H. left; reflexivity.
Qed.

(** Elements with equal sort keys keep the order they came in: the sort does
    not move an element across another one it may follow. *)
Lemma sort_stable_stable (p : A -> bool) l :
  (forall x y, p x = true -> p y = true -> le (key x) (key y) = true) ->
  filter p (sort_stable le key l) = filter p l.
Proof.
  intros Hsame.
  assert (forall x s, p x = false -> filter p (insert_stable le key x s) = filter p s) as Hskip.
  { intros x s Hx. induction s as [|y s IH]; simpl; [rewrite Hx; reflexivity|].
    destruct (le (key x) (key y)); simpl; [rewrite Hx; reflexivity|].
    rewrite IH. reflexivity. }
  assert (forall x s, p x = true -> StronglySorted before s ->
                      filter p (insert_stable le key x s) = x :: filter p s) as Hkeep.
  { intros x s Hx S. induction S as [|y s S IH F]; simpl; [rewrite Hx; reflexivity|].
    destruct (le (key x) (key y)) eqn:E; simpl; [rewrite Hx; reflexivity|].
    destruct (p y) eqn:Hy.
    - rewrite (Hsame x y Hx Hy) in E. discriminate.
    - exact IH. }
  induction l as [|x l IH]; simpl; [reflexivity|].
  destruct (p x) eqn:Hx.
  - rewrite Hkeep by (auto using sort_stable_StronglySorted). rewrite IH. reflexivity.
  - rewrite Hskip by assumption. exact IH.
Qed.

End StableSortFacts.

(** ** Dictionaries *)

Section DictionaryFacts.

Variable V : Type.
Implicit Types (d : dict V) (k : string) (v : V).

Lemma dict_get_Some_In d k v : dict_get d k = Some v -> In (k, v) d.
Proof.
  induction d as [|[k' v'] d IH]; simpl; [discriminate|].
  destruct (String.eqb k k') eqn:E.
  - apply String.eqb_eq in E. subst. intros H; inversion H. left; reflexivity.
  - intros H. right. auto.
Qed.

Lemma dict_get_None d k : dict_get d k = None <-> ~ In k (dict_keys d).
Proof.
  induction d as [|[k' v'] d IH]; simpl; [tauto|].
  destruct (String.eqb k k') eqn:E.
  - apply String.eqb_eq in E. subst. split; [discriminate|].
    intros H. exfalso. apply H. left; reflexivity.
  - apply String.eqb_neq in E. rewrite IH. split.
    + intros H [H1 | H1]; [congruence | auto].
    + intros H H1. apply H. right; assumption.
Qed.

Lemma dict_get_In d k v : NoDup (dict_keys d) -> In (k, v) d -> dict_get d k = Some v.
Proof.
  induction d as [|[k' v'] d IH]; simpl; intros N H; [contradiction|].
  inversion N as [|? ? Hnin N']; subst.
  destruct H as [H | H].
  - inversion H; subst. rewrite String.eqb_refl. reflexivity.
  - destruct (String.eqb k k') eqn:E; [|auto].
    apply String.eqb_eq in E. subst. exfalso. apply Hnin.
    apply in_map_iff. exists (k', v). auto.
Qed.

Lemma dict_set_fresh d k v : dict_get d k = None -> dict_set d k v = d ++ [(k, v)].
Proof.
  induction d as [|[k' v'] d IH]; simpl; [reflexivity|].
  destruct (String.eqb k k'); [discriminate|]. intros H. rewrite IH by assumption. reflexivity.
Qed.

Lemma dict_set_present d k v v0 :
  dict_get d k = Some v0 ->
  dict_keys (dict_set d k v) = dict_keys d /\ List.length (dict_set d k v) = List.length d.
Proof.
  induction d as [|[k' v'] d IH]; simpl; [discriminate|].
  destruct (String.eqb k k') eqn:E.
  - apply String.eqb_eq in E. subst. auto.
  - intros H. destruct (IH H) as [IH1 IH2]. simpl. rewrite IH1, IH2. auto.
Qed.

Lemma dict_set_NoDup d k v : NoDup (dict_keys d) -> NoDup (dict_keys (dict_set d k v)).
Proof.
  intros N. destruct (dict_get d k) as [v0|] eqn:G.
  - destruct (dict_set_present d k v v0 G) as [-> _]. exact N.
  - rewrite dict_set_fresh by assumption. unfold dict_keys. rewrite map_app. simpl.
    apply NoDup_app; [exact N | repeat constructor; simpl; tauto |].
    intros a Ha [<- | []]. apply dict_get_None in G. contradiction.
Qed.

Lemma dict_get_set_same d k v : dict_get (dict_set d k v) k = Some v.
Proof.
  induction d as [|[k' v'] d IH]; simpl.
  - rewrite String.eqb_refl. reflexivity.
  - destruct (String.eqb k k') eqn:E; simpl.
    + rewrite String.eqb_refl. reflexivity.
    + rewrite E. exact IH.
Qed.

Lemma dict_get_set_other d k v k' : k' <> k -> dict_get (dict_set d k v) k' = dict_get d k'.
Proof.
  intros Hne. induction d as [|[k0 v0] d IH]; simpl.
  - apply String.eqb_neq in Hne. rewrite Hne. reflexivity.
  - destruct (String.eqb k k0) eqn:E; simpl.
    + apply String.eqb_eq in E. subst k0.
      apply String.eqb_neq in Hne. rewrite Hne. reflexivity.
    + rewrite IH. reflexivity.
Qed.

(** A write touches the item of its key and nothing else. *)
Lemma In_dict_set d k v k' v' :
  NoDup (dict_keys d) ->
  In (k', v') (dict_set d k v) ->
  (k' = k /\ v' = v) \/ (k' <> k /\ In (k', v') d).
Proof.
  intros N H.
  apply dict_get_In in H; [|apply dict_set_NoDup; exact N].
  destruct (String.eqb k' k) eqn:E.
  - apply String.eqb_eq in E. subst k'. rewrite dict_get_set_same in H.
    left. split; congruence.
  - apply String.eqb_neq in E. rewrite dict_get_set_other in H by assumption.
    right. split; [assumption | apply dict_get_Some_In; assumption].
Qed.

(** Deleting a list of keys one by one is one pass of [filter]. *)
Lemma fold_left_dict_del (removed : list string) :
  forall d,
    fold_left dict_del removed d
    = filter (fun p => negb (mem_string (fst p) removed)) d.
Proof.
  induction removed as [|k removed IH]; intros d; simpl.
  - symmetry. apply filter_true.
  - rewrite IH. unfold dict_del. induction d as [|[k' v'] d IHd]; simpl; [reflexivity|].
    rewrite (String.eqb_sym k' k).
    destruct (String.eqb k k'); simpl; [exact IHd|].
    fold (mem_string k' removed).
    destruct (mem_string k' removed); simpl; [exact IHd|]. rewrite IHd. reflexivity.
Qed.

End DictionaryFacts.

Lemma filter_prefix_keys {B : Type} (g : B -> string) (l1 l2 : list B) :
  NoDup (map g (l1 ++ l2)) ->
  filter (fun p => negb (mem_string (g p) (map g l1))) (l1 ++ l2) = l2.
Proof.
  intros N. rewrite filter_app.
  rewrite map_app in N.
  assert (filter (fun p => negb (mem_string (g p) (map g l1))) l1 = []) as ->.
  { transitivity (filter (fun _ : B => false) l1); [|apply filter_false].
    apply filter_ext_in. intros a Ha.
    apply negb_false_iff. apply mem_string_In. apply in_map. exact Ha. }
  simpl. transitivity (filter (fun _ : B => true) l2); [|apply filter_true].
  apply filter_ext_in. intros a Ha.
  apply negb_true_iff. destruct (mem_string (g a) (map g l1)) eqn:M; [|reflexivity].
  apply mem_string_In in M. exfalso.
  revert N M Ha. clear. induction l1 as [|x l1 IH]; simpl; [tauto|].
  intros N. inversion N as [|? ? Hnin N']; subst. intros [E | M] Ha.
  - apply Hnin. rewrite E. apply in_or_app. right. apply in_map. exact Ha.
  - apply IH; assumption.
Qed.

(** ** The cache under [manage_cache_size] *)

Lemma Qle_bool_total (a b : Q) : Qle_bool a b = true \/ Qle_bool b a = true.
Proof.
  destruct (Qlt_le_dec a b) as [H | H]; [left | right]; apply Qle_bool_iff;
    [apply Qlt_le_weak|]; exact H.
Qed.

Lemma Qle_bool_trans (a b c : Q) :
  Qle_bool a b = true -> Qle_bool b c = true -> Qle_bool a c = true.
Proof. rewrite !Qle_bool_iff. apply Qle_trans. Qed.

Lemma StronglySorted_weaken {A : Type} (R R' : A -> A -> Prop) (l : list A) :
  (forall a b, In a l -> In b l -> R a b -> R' a b) ->
  StronglySorted R l -> StronglySorted R' l.
Proof.
  intros H S. induction S as [|x l S IH F]; constructor.
  - apply IH. intros a b Ha Hb. apply H; right; assumption.
  - rewrite Forall_forall in *. intros y Hy.
    apply H; [left; reflexivity | right; assumption | apply F, Hy].
Qed.

Lemma StronglySorted_map {A B : Type} (f : A -> B) (R : B -> B -> Prop) (l : list A) :
  StronglySorted (fun a b => R (f a) (f b)) l -> StronglySorted R (map f l).
Proof.
  induction 1 as [|x l S IH F]; simpl; constructor; [exact IH|].
  rewrite Forall_forall in *. intros y Hy. apply in_map_iff in Hy.
  destruct Hy as [a [<- Ha]]. apply F, Ha.
Qed.

Lemma sorted_Permutation {A : Type} (f : A -> Q) (l : list A) : Permutation (sorted f l) l.
Proof. apply sort_stable_Permutation. Qed.

Lemma sorted_StronglySorted {A : Type} (f : A -> Q) (l : list A) :
  StronglySorted (fun a b => f a <= f b) (sorted f l).
Proof.
  apply StronglySorted_weaken with (R := fun a b => Qle_bool (f a) (f b) = true).
  - intros a b _ _. apply Qle_bool_iff.
  - apply sort_stable_StronglySorted; [apply Qle_bool_total | apply Qle_bool_trans].
Qed.

Lemma sorted_sorted {A : Type} (f : A -> Q) (l : list A) :
  StronglySorted (fun a b => f a <= f b) l -> sorted f l = l.
Proof.
  intros S. apply sort_stable_sorted.
  apply StronglySorted_weaken with (R := fun a b => f a <= f b); [|exact S].
  intros a b _ _. apply Qle_bool_iff.
Qed.

Section CacheFacts.

Implicit Types (article_cache : Cache) (capacity : nat).

Lemma timestamp_of_In article_cache k item :
  NoDup (dict_keys article_cache) -> In (k, item) article_cache ->
  timestamp_of article_cache k = CacheItem.timestamp item.
Proof.
  intros N H. unfold timestamp_of. rewrite (dict_get_In _ _ _ _ N H). reflexivity.
Qed.

Lemma manage_cache_size_at_filter capacity article_cache :
  manage_cache_size_at capacity article_cache
  = filter (fun p => negb (mem_string (fst p) (keys_to_remove capacity article_cache)))
      article_cache.
Proof.
  unfold manage_cache_size_at.
  destruct (capacity <? List.length article_cache)%nat eqn:E.
  - apply fold_left_dict_del.
  - apply Nat.ltb_ge in E. unfold keys_to_remove.
    replace (List.length article_cache - capacity)%nat with 0%nat by lia.
    simpl. symmetry. apply filter_true.
Qed.

Lemma manage_cache_size_at_In capacity article_cache k item :
  In (k, item) (manage_cache_size_at capacity article_cache)
  <-> In (k, item) article_cache /\ ~ In k (keys_to_remove capacity article_cache).
Proof.
  rewrite manage_cache_size_at_filter, filter_In. simpl.
  rewrite negb_true_iff, <- mem_string_In.
  destruct (mem_string k (keys_to_remove capacity article_cache)); split;
    intros [H1 H2]; split; auto; congruence.
Qed.

(** The keys that stay are, up to order, the newest ones of the sorted list. *)
Lemma manage_cache_size_at_keys capacity article_cache :
  NoDup (dict_keys article_cache) ->
  Permutation
    (dict_keys (manage_cache_size_at capacity article_cache))
    (skipn (List.length article_cache - capacity)
       (sorted (timestamp_of article_cache) (dict_keys article_cache))).
Proof.
  intros N. rewrite manage_cache_size_at_filter. unfold dict_keys at 1.
  set (removed := keys_to_remove capacity article_cache).
  set (s := sorted (timestamp_of article_cache) (dict_keys article_cache)).
  set (m := (List.length article_cache - capacity)%nat).
  assert (map fst (filter (fun p => negb (mem_string (fst p) removed)) article_cache)
          = filter (fun k => negb (mem_string k removed)) (dict_keys article_cache)) as ->.
  { unfold dict_keys. symmetry. apply filter_map_swap. }
  apply Permutation_trans with (filter (fun k => negb (mem_string k removed)) s).
  - apply Permutation_filter, Permutation_sym, sorted_Permutation.
  - assert (NoDup s) as Ns.
    { apply (Permutation_NoDup (Permutation_sym (sorted_Permutation _ _))). exact N. }
    pose proof (filter_prefix_keys (fun k : string => k) (firstn m s) (skipn m s)) as H.
    rewrite !map_id, firstn_skipn in H.
    change removed with (firstn m s). rewrite (H Ns). apply Permutation_refl.
Qed.

Lemma manage_cache_size_at_length capacity article_cache :
  NoDup (dict_keys article_cache) ->
  List.length (manage_cache_size_at capacity article_cache)
  = Nat.min (List.length article_cache) capacity.
Proof.
  intros N.
  pose proof (Permutation_length (manage_cache_size_at_keys capacity article_cache N)) as H.
  unfold dict_keys in H at 1. rewrite length_map, length_skipn in H.
  rewrite (Permutation_length (sorted_Permutation _ _)) in H.
  unfold dict_keys in H. rewrite length_map in H. lia.
Qed.

Lemma manage_cache_size_at_NoDup capacity article_cache :
  NoDup (dict_keys article_cache) ->
  NoDup (dict_keys (manage_cache_size_at capacity article_cache)).
Proof.
  intros N. rewrite manage_cache_size_at_filter. unfold dict_keys.
  rewrite <- (filter_map_swap (fun k => negb (mem_string k (keys_to_remove capacity article_cache)))).
  apply NoDup_filter. exact N.
Qed.

(** Whatever is evicted is at most as recent as whatever stays. *)
Lemma manage_cache_size_at_oldest capacity article_cache k item k' item' :
  NoDup (dict_keys article_cache) ->
  In (k, item) article_cache ->
  ~ In (k, item) (manage_cache_size_at capacity article_cache) ->
  In (k', item') (manage_cache_size_at capacity article_cache) ->
  CacheItem.timestamp item <= CacheItem.timestamp item'.
Proof.
  intros N Hin Hout Hstay.
  set (s := sorted (timestamp_of article_cache) (dict_keys article_cache)).
  set (m := (List.length article_cache - capacity)%nat).
  assert (In k (firstn m s)) as Hk.
  { destruct (mem_string k (firstn m s)) eqn:M; [apply mem_string_In; exact M|].
    exfalso. apply Hout. apply manage_cache_size_at_In. split; [exact Hin|].
    intros H. apply mem_string_In in H. unfold keys_to_remove in H. fold s m in H. congruence. }
  assert (In k' (skipn m s)) as Hk'.
  { apply (Permutation_in _ (manage_cache_size_at_keys capacity article_cache N)).
    unfold dict_keys. apply in_map_iff. exists (k', item'). auto. }
  pose proof (sorted_StronglySorted (timestamp_of article_cache) (dict_keys article_cache)) as S.
  fold s in S. rewrite <- (firstn_skipn m s) in S.
  pose proof (StronglySorted_app_inv _ _ _ S k k' Hk Hk') as H. simpl in H.
  rewrite (timestamp_of_In _ _ _ N Hin) in H.
  apply manage_cache_size_at_In in Hstay. destruct Hstay as [Hstay _].
  rewrite (timestamp_of_In _ _ _ N Hstay) in H. exact H.
Qed.

(** On a cache whose items are already in the order of their timestamps the
    oldest items are the first ones. *)
Lemma manage_cache_size_at_sorted capacity article_cache :
  NoDup (dict_keys article_cache) ->
  StronglySorted by_timestamp article_cache ->
  manage_cache_size_at capacity article_cache
  = skipn (List.length article_cache - capacity) article_cache.
Proof.
  intros N S. rewrite manage_cache_size_at_filter.
  set (m := (List.length article_cache - capacity)%nat).
  assert (keys_to_remove capacity article_cache = map fst (firstn m article_cache)) as ->.
  { unfold keys_to_remove. fold m. rewrite sorted_sorted; [apply firstn_map|].
    unfold dict_keys. apply StronglySorted_map.
    apply StronglySorted_weaken with (R := by_timestamp); [|exact S].
    intros [ka a] [kb b] Ha Hb H. simpl.
    rewrite (timestamp_of_In _ _ _ N Ha), (timestamp_of_In _ _ _ N Hb). exact H. }
  pose proof (filter_prefix_keys fst (firstn m article_cache) (skipn m article_cache)) as H.
  rewrite firstn_skipn in H. apply H. exact N.
Qed.

End CacheFacts.

(** ** One write, then a run of writes *)

Lemma In_firstn_list {A : Type} (m : nat) (l : list A) (x : A) : In x (firstn m l) -> In x l.
Proof. intros H. rewrite <- (firstn_skipn m l). apply in_or_app. left; exact H. Qed.

Lemma In_skipn_list {A : Type} (m : nat) (l : list A) (x : A) : In x (skipn m l) -> In x l.
Proof. intros H. rewrite <- (firstn_skipn m l). apply in_or_app. right; exact H. Qed.

Lemma StronglySorted_app_l {A : Type} (R : A -> A -> Prop) (l1 l2 : list A) :
  StronglySorted R (l1 ++ l2) -> StronglySorted R l1.
Proof.
  induction l1 as [|x l1 IH]; simpl; intros S; [constructor|].
  apply StronglySorted_inv in S. destruct S as [S F].
  constructor; [apply IH, S|].
  apply Forall_app in F. tauto.
Qed.

Lemma StronglySorted_app_r {A : Type} (R : A -> A -> Prop) (l1 l2 : list A) :
  StronglySorted R (l1 ++ l2) -> StronglySorted R l2.
Proof.
  induction l1 as [|x l1 IH]; simpl; intros S; [exact S|].
  apply StronglySorted_inv in S. apply IH, S.
Qed.

Lemma StronglySorted_skipn {A : Type} (R : A -> A -> Prop) (m : nat) (l : list A) :
  StronglySorted R l -> StronglySorted R (skipn m l).
Proof.
  intros S. rewrite <- (firstn_skipn m l) in S. apply StronglySorted_app_r in S. exact S.
Qed.

Lemma NoDup_skipn {A : Type} (m : nat) (l : list A) : NoDup l -> NoDup (skipn m l).
Proof.
  intros N. rewrite <- (firstn_skipn m l) in N. apply NoDup_app_remove_l in N. exact N.
Qed.

Lemma filter_subsequence {A : Type} (f : A -> bool) (l : list A) : subsequence (filter f l) l.
Proof.
  induction l as [|x l IH]; simpl; [constructor|].
  destruct (f x); constructor; exact IH.
Qed.

Section WriteFacts.

Variable capacity : nat.
Variable article_cache : Cache.
Variable cache_key : string.
Variable result : ArticleResponse.t.
Variable now : Q.

Hypothesis keys_distinct : NoDup (dict_keys article_cache).

Local Abbreviation new_item := (CacheItem.mk result now).
Local Abbreviation written := (dict_set article_cache cache_key new_item).
Local Abbreviation after := (save_to_cache_at capacity article_cache cache_key result now).

Lemma save_to_cache_at_NoDup : NoDup (dict_keys after).
Proof.
  unfold save_to_cache_at. apply manage_cache_size_at_NoDup, dict_set_NoDup, keys_distinct.
Qed.

Lemma save_to_cache_at_length :
  List.length after = Nat.min (List.length written) capacity.
Proof.
  unfold save_to_cache_at. apply manage_cache_size_at_length, dict_set_NoDup, keys_distinct.
Qed.

Lemma save_to_cache_at_no_eviction :
  (List.length written <= capacity)%nat -> after = written.
Proof.
  intros H. unfold save_to_cache_at, manage_cache_size_at.
  destruct (capacity <? List.length written)%nat eqn:E; [|reflexivity].
  apply Nat.ltb_lt in E. lia.
Qed.

(** Every item after the write is the new one or an old one of another key. *)
Lemma save_to_cache_at_In k item :
  In (k, item) after ->
  (k = cache_key /\ item = new_item) \/ (k <> cache_key /\ In (k, item) article_cache).
Proof.
  intros H. unfold save_to_cache_at in H. apply manage_cache_size_at_In in H.
  destruct H as [H _]. apply In_dict_set in H; [exact H | exact keys_distinct].
Qed.

Lemma save_to_cache_at_get_other k item :
  k <> cache_key -> dict_get after k = Some item -> dict_get article_cache k = Some item.
Proof.
  intros Hne H. apply dict_get_Some_In in H.
  destruct (save_to_cache_at_In k item H) as [[E _] | [_ Hin]]; [contradiction|].
  apply dict_get_In; assumption.
Qed.

(** The item just written stays, when no other item is more recent. *)
Lemma save_to_cache_at_keeps_new :
  (1 <= capacity)%nat ->
  (List.length article_cache <= capacity)%nat ->
  (forall k item, In (k, item) article_cache -> k <> cache_key ->
                  CacheItem.timestamp item <= now) ->
  dict_get after cache_key = Some new_item.
Proof.
  intros Hcap Hlen Hts.
  destruct (dict_get article_cache cache_key) as [v0|] eqn:G.
  - rewrite save_to_cache_at_no_eviction.
    + apply dict_get_set_same.
    + destruct (dict_set_present _ article_cache cache_key new_item v0 G) as [_ ->]. exact Hlen.
  - apply dict_get_In; [apply save_to_cache_at_NoDup|].
    unfold save_to_cache_at. apply manage_cache_size_at_In. split.
    + apply dict_get_Some_In, dict_get_set_same.
    + assert (~ In cache_key (dict_keys article_cache)) as Hfresh.
      { apply dict_get_None. exact G. }
      assert (dict_keys written = dict_keys article_cache ++ [cache_key]) as Ekeys.
      { rewrite dict_set_fresh by exact G. unfold dict_keys. rewrite map_app. reflexivity. }
      assert (List.length written = S (List.length article_cache)) as Elen.
      { rewrite dict_set_fresh by exact G. rewrite length_app. simpl. lia. }
      unfold keys_to_remove. rewrite Ekeys, Elen. unfold sorted.
      rewrite sort_stable_app_last.
      * rewrite firstn_app.
        pose proof (Permutation_length
                      (sort_stable_Permutation _ _ Qle_bool (timestamp_of written)
                         (dict_keys article_cache))) as Hl.
        unfold dict_keys in Hl at 2. rewrite length_map in Hl.
        replace (S (List.length article_cache) - capacity
                 - List.length (sort_stable Qle_bool (timestamp_of written)
                                  (dict_keys article_cache)))%nat
          with 0%nat by lia.
        simpl. rewrite app_nil_r. intros Hin. apply In_firstn_list in Hin.
        apply (Permutation_in _ (sort_stable_Permutation _ _ _ _ _)) in Hin. contradiction.
      * intros y Hy. apply Qle_bool_iff.
        assert (y <> cache_key) as Hne by (intros ->; contradiction).
        unfold timestamp_of. rewrite dict_get_set_same, dict_get_set_other by exact Hne.
        unfold dict_keys in Hy. apply in_map_iff in Hy. destruct Hy as [[y' item] [E Hin]].
        simpl in E. subst y'. rewrite (dict_get_In _ _ _ _ keys_distinct Hin). simpl.
        apply (Hts y item Hin Hne).
Qed.

End WriteFacts.

(** Writes with distinct keys and increasing timestamps, from the empty
    cache: the cache holds the last [capacity] of them, in order. *)
Lemma save_all_at_increasing (capacity : nat) (puts : list cache_write) :
  NoDup (map write_key puts) ->
  StronglySorted (fun p q => write_now p < write_now q) puts ->
  save_all_at capacity puts []
  = skipn (List.length puts - capacity) (map entry_of puts).
Proof.
  induction puts as [|p puts IH] using rev_ind; intros N S; [reflexivity|].
  unfold save_all_at in *. rewrite fold_left_app. simpl.
  rewrite map_app in N.
  rewrite IH; [|apply NoDup_app_remove_r in N; exact N | apply StronglySorted_app_l in S; exact S].
  set (L := map entry_of (puts ++ [p])).
  set (m := (List.length puts - capacity)%nat).
  assert (NoDup (dict_keys L)) as NL.
  { unfold L, dict_keys. rewrite map_map. simpl. rewrite map_app. exact N. }
  assert (StronglySorted by_timestamp L) as SL.
  { unfold L. apply StronglySorted_map.
    apply StronglySorted_weaken with (R := fun p q => write_now p < write_now q); [|exact S].
    intros a b _ _ H. unfold by_timestamp. simpl. apply Qlt_le_weak. exact H. }
  assert (skipn m (map entry_of puts) ++ [entry_of p] = skipn m L) as Ewritten.
  { unfold L. rewrite map_app, skipn_app, length_map. simpl.
    replace (m - List.length puts)%nat with 0%nat by (unfold m; lia). reflexivity. }
  assert (dict_get (skipn m (map entry_of puts)) (write_key p) = None) as Hfresh.
  { apply dict_get_None. intros Hin. unfold dict_keys in Hin.
    rewrite <- skipn_map in Hin. apply In_skipn_list in Hin. rewrite map_map in Hin. simpl in Hin.
    apply NoDup_remove_2 in N. rewrite app_nil_r in N. apply N. exact Hin. }
  unfold save_to_cache_at.
  rewrite dict_set_fresh by exact Hfresh.
  change (write_key p, CacheItem.mk (write_result p) (write_now p)) with (entry_of p).
  rewrite Ewritten.
  rewrite manage_cache_size_at_sorted.
  - rewrite skipn_skipn. f_equal. rewrite length_skipn. unfold L.
    rewrite length_map, length_app. simpl. unfold m. lia.
  - unfold dict_keys. rewrite <- skipn_map. apply NoDup_skipn. exact NL.
  - apply StronglySorted_skipn. exact SL.
Qed.

(** C2. After a write the cache holds at most [capacity] items (100 in the
    code).  When the write brings it above [capacity], whole items are
    evicted until exactly [capacity] are left, and every evicted item is at
    most as recent as every item that stays; otherwise nothing is evicted.
    Hence a run of more than [capacity] writes with distinct keys and
    increasing timestamps, started on the empty cache, leaves exactly the
    last [capacity] items written. *)
Theorem cache_is_bounded_and_evicts_oldest :
  (forall capacity article_cache cache_key result now,
      NoDup (dict_keys article_cache) ->
      let written := dict_set article_cache cache_key (CacheItem.mk result now) in
      let after := save_to_cache_at capacity article_cache cache_key result now in
      NoDup (dict_keys after)
      /\ (List.length after <= capacity)%nat
      /\ ((capacity < List.length written)%nat -> List.length after = capacity)
      /\ ((List.length written <= capacity)%nat -> after = written)
      /\ subsequence after written
      /\ (forall k item k' item',
            In (k, item) written -> ~ In (k, item) after -> In (k', item') after ->
            CacheItem.timestamp item <= CacheItem.timestamp item'))
  /\ (forall capacity puts,
        NoDup (map write_key puts) ->
        StronglySorted (fun p q => write_now p < write_now q) puts ->
        (capacity < List.length puts)%nat ->
        let after := save_all_at capacity puts [] in
        List.length after = capacity
        /\ after = skipn (List.length puts - capacity) (map entry_of puts))
  /\ save_to_cache = save_to_cache_at 100.
Proof.
  split; [|split; [|reflexivity]].
  - intros capacity article_cache cache_key result now N written after.
    pose proof (save_to_cache_at_length capacity article_cache cache_key result now N) as Hlen.
    fold written after in Hlen.
    split; [apply save_to_cache_at_NoDup; exact N|].
    split; [lia|]. split; [lia|].
    split; [apply save_to_cache_at_no_eviction|].
    split.
    + unfold after, save_to_cache_at. rewrite manage_cache_size_at_filter.
      apply filter_subsequence.
    + intros k item k' item' Hin Hout Hstay.
      apply (manage_cache_size_at_oldest capacity written k item k' item');
        [apply dict_set_NoDup; exact N | exact Hin | exact Hout | exact Hstay].
  - intros capacity puts N S Hn after.
    assert (after = skipn (List.length puts - capacity) (map entry_of puts)) as E.
    { apply save_all_at_increasing; assumption. }
    split; [|exact E].
    rewrite E, length_skipn, length_map. lia.
Qed.

(** C10. A write of [cache_key] leaves in the cache only the new item and
    items the cache already had under other keys, each with the record and
    the timestamp it had; and in a cache within its bound, the new item,
    when no other item is more recent, is not evicted by its own write.
    Both call sites, the route and the background refresh, make this
    write. *)
Theorem write_touches_only_its_key :
  (forall capacity article_cache cache_key result now,
      NoDup (dict_keys article_cache) ->
      let after := save_to_cache_at capacity article_cache cache_key result now in
      (forall k item,
          In (k, item) after ->
          (k = cache_key /\ item = CacheItem.mk result now)
          \/ (k <> cache_key /\ In (k, item) article_cache))
      /\ (forall k item,
            k <> cache_key -> dict_get after k = Some item ->
            dict_get article_cache k = Some item)
      /\ ((1 <= capacity)%nat ->
          (List.length article_cache <= capacity)%nat ->
          (forall k item, In (k, item) article_cache -> k <> cache_key ->
                          CacheItem.timestamp item <= now) ->
          dict_get after cache_key = Some (CacheItem.mk result now)))
  /\ (forall lower nlp md html_to_text md5_hexdigest w t_start t_end now article
             article_cache result,
        (if cache article
         then dict_get article_cache (get_cache_key md5_hexdigest (link article))
         else None) = None ->
        process_article_data lower nlp md html_to_text w t_start t_end (link article)
        = Returned result ->
        snd (process_article lower nlp md html_to_text md5_hexdigest
               w t_start t_end now article article_cache)
        = save_to_cache_at CACHE_SIZE article_cache
            (get_cache_key md5_hexdigest (link article)) result now)
  /\ (forall lower nlp md html_to_text w t_start t_end now url cache_key article_cache result,
        process_article_data lower nlp md html_to_text w t_start t_end url = Returned result ->
        update_article_cache lower nlp md html_to_text w t_start t_end now url cache_key
          article_cache
        = save_to_cache_at CACHE_SIZE article_cache cache_key result now).
Proof.
  split; [|split].
  - intros capacity article_cache cache_key result now N after.
    split; [|split].
    + apply save_to_cache_at_In. exact N.
    + apply save_to_cache_at_get_other. exact N.
    + apply save_to_cache_at_keeps_new. exact N.
  - intros lower nlp md h2t md5 w ts te now article article_cache result Hmiss Hrun.
    unfold process_article. rewrite Hmiss, Hrun. reflexivity.
  - intros lower nlp md h2t w ts te now url cache_key article_cache result Hrun.
    unfold update_article_cache. rewrite Hrun. reflexivity.
Qed.

(** C4. A request with caching enabled that finds an item older than 3600
    seconds gets the cached record back, marked as cached, leaves the cache
    as it is and adds exactly one background task, the refresh of its key;
    and when that refresh later fails, whatever the cache holds by then is
    left as it is. *)
Theorem stale_hit_is_served_and_refreshed_once :
  forall lower nlp md html_to_text md5_hexdigest w t_start t_end now article
         article_cache cached_item,
    cache article = true ->
    dict_get article_cache (get_cache_key md5_hexdigest (link article)) = Some cached_item ->
    3600 < now - CacheItem.timestamp cached_item ->
    let cache_key := get_cache_key md5_hexdigest (link article) in
    process_article lower nlp md html_to_text md5_hexdigest w t_start t_end now article
      article_cache
    = (Returned {| data := CacheItem.data cached_item; cached := true |},
       [update_article_cache_task (link article) cache_key],
       article_cache)
    /\ (forall w' t_start' t_end' now' e later_cache,
          process_article_data lower nlp md html_to_text w' t_start' t_end' (link article)
          = Raised e ->
          run_background_task lower nlp md html_to_text w' t_start' t_end' now'
            (update_article_cache_task (link article) cache_key) later_cache
          = later_cache).
Proof.
  intros lower nlp md h2t md5 w ts te now article article_cache item Hc Hget Hold cache_key.
  split.
  - unfold process_article. fold cache_key. rewrite Hc. unfold cache_key. rewrite Hget.
    apply older_than_1_hour_spec in Hold. rewrite Hold. reflexivity.
  - intros w' ts' te' now' e later_cache Hfail.
    unfold run_background_task, update_article_cache. rewrite Hfail. reflexivity.
Qed.

(** C5. A request that takes the synchronous path and whose enrichment
    raises, at whatever step, gets an [HTTPException] and leaves the cache
    exactly as it was, with no background task added: an [HTTPException] of
    the run is raised again as it is, any other exception becomes a 500 with
    the cause in its detail.  So a failed download gives the 422 of
    [fetch_article], and a failure of the spaCy pipeline after the fetch
    gives a 500. *)
Theorem failed_request_leaves_cache_untouched :
  forall lower nlp md html_to_text md5_hexdigest w t_start t_end now article
         article_cache e,
    (if cache article
     then dict_get article_cache (get_cache_key md5_hexdigest (link article))
     else None) = None ->
    process_article_data lower nlp md html_to_text w t_start t_end (link article) = Raised e ->
    process_article lower nlp md html_to_text md5_hexdigest w t_start t_end now article
      article_cache
    = (Raised
         match e with
         | HTTPException status_code detail => HTTPException status_code detail
         | Exception message =>
             HTTPException HTTP_500_INTERNAL_SERVER_ERROR
               ("Error processing article: " ++ message)
         end,
       [], article_cache)
    /\ (exists status_code detail,
          process_article lower nlp md html_to_text md5_hexdigest w t_start t_end now article
            article_cache
          = (Raised (HTTPException status_code detail), [], article_cache))
    /\ (forall cause,
          newspaper w (link article) = Raised cause ->
          process_article lower nlp md html_to_text md5_hexdigest w t_start t_end now article
            article_cache
          = (Raised (HTTPException HTTP_422_UNPROCESSABLE_ENTITY
                       ("Could not fetch article: " ++ str cause)),
             [], article_cache))
    /\ (forall fetched message,
          fetch_article html_to_text w (link article) = Returned fetched ->
          nlp_fault w = Some (Exception message) ->
          process_article lower nlp md html_to_text md5_hexdigest w t_start t_end now article
            article_cache
          = (Raised (HTTPException HTTP_500_INTERNAL_SERVER_ERROR
                       ("Error processing article: " ++ message)),
             [], article_cache)).
Proof.
  intros lower nlp md h2t md5 w ts te now article article_cache e Hmiss Hrun.
  assert (process_article lower nlp md h2t md5 w ts te now article article_cache
          = (Raised
               match e with
               | HTTPException status_code detail => HTTPException status_code detail
               | Exception message =>
                   HTTPException HTTP_500_INTERNAL_SERVER_ERROR
                     ("Error processing article: " ++ message)
               end,
             [], article_cache)) as E.
  { unfold process_article. rewrite Hmiss, Hrun. destruct e; reflexivity. }
  split; [exact E|]. split; [|split].
  - rewrite E. destruct e; eexists; eexists; reflexivity.
  - intros cause Hdl. unfold process_article. rewrite Hmiss.
    unfold process_article_data, fetch_article. rewrite Hdl. reflexivity.
  - intros fetched message Hf Hn. unfold process_article. rewrite Hmiss.
    unfold process_article_data. rewrite Hf, Hn. reflexivity.
Qed.

(** C9. [get_cached_articles] reports as total the number of cached items
    and returns the slice from [offset] of length [limit] of the list of
    all cached items sorted, most recent first, on the publish date of the
    article when it has one and on the time it was cached otherwise. *)
Theorem cached_articles_are_paged_newest_first :
  forall fromtimestamp limit offset article_cache,
    let response := get_cached_articles fromtimestamp limit offset article_cache in
    let sort_date (a : CachedArticleResponse.t) : Z :=
      match ArticleResponse.date (CachedArticleResponse.article a) with
      | Some publish_date => wall publish_date
      | None => CachedArticleResponse.cached_at a
      end in
    exists whole : list CachedArticleResponse.t,
      Permutation whole
        (map (fun item =>
                CachedArticleResponse.mk (fst item)
                  (fromtimestamp (CacheItem.timestamp (snd item)))
                  (CacheItem.data (snd item)))
             article_cache)
      /\ StronglySorted (fun a b => (sort_date b <= sort_date a)%Z) whole
      /\ articles response = firstn limit (skipn offset whole)
      /\ total_articles response = List.length whole
      /\ total_articles response = List.length article_cache.
Proof.
  intros fromtimestamp limit offset article_cache response sort_date.
  set (rows := cached_articles_of fromtimestamp article_cache).
  set (to_response := fun item =>
         CachedArticleResponse.mk (ca_cache_key item) (ca_cached_at item) (ca_article item)).
  assert (forall a b : Z, (b <=? a)%Z = true \/ (a <=? b)%Z = true) as Htotal.
  { intros a b. destruct (Z.le_ge_cases a b); [right | left]; apply Z.leb_le; assumption. }
  assert (forall a b c : Z, (b <=? a)%Z = true -> (c <=? b)%Z = true -> (c <=? a)%Z = true)
    as Htrans.
  { intros a b c. rewrite !Z.leb_le. lia. }
  pose proof (sort_stable_Permutation _ _ (fun a b => (b <=? a)%Z) ca_creation_date rows) as P.
  exists (map to_response (sort_reverse ca_creation_date rows)).
  split; [|split; [|split; [|split]]].
  - eapply Permutation_trans; [apply Permutation_map, P|].
    unfold rows, cached_articles_of. rewrite map_map. apply Permutation_refl.
  - apply StronglySorted_map.
    apply StronglySorted_weaken
      with (R := fun x y => (ca_creation_date y <=? ca_creation_date x)%Z = true).
    + assert (forall x, In x (sort_reverse ca_creation_date rows) ->
                        sort_date (to_response x) = ca_creation_date x) as Hdate.
      { intros x Hx. apply (Permutation_in _ P) in Hx.
        unfold rows, cached_articles_of in Hx. apply in_map_iff in Hx.
        destruct Hx as [item [<- _]]. unfold sort_date, to_response, creation_date_of.
        simpl. destruct (ArticleResponse.date (CacheItem.data (snd item))) as [d|];
          [destruct (tzinfo d)|]; reflexivity. }
      intros a b Ha Hb H. rewrite (Hdate a Ha), (Hdate b Hb). apply Z.leb_le. exact H.
    + unfold sort_reverse.
      apply (sort_stable_StronglySorted _ _ (fun a b => (b <=? a)%Z) ca_creation_date);
        assumption.
  - unfold response, get_cached_articles, slice. simpl. fold rows.
    replace (offset + limit - offset)%nat with limit by lia.
    rewrite skipn_map, firstn_map. reflexivity.
  - unfold response, get_cached_articles. simpl. fold rows. rewrite length_map. reflexivity.
  - unfold response, get_cached_articles. simpl. fold rows.
    unfold sort_reverse. rewrite (Permutation_length P).
    unfold rows, cached_articles_of. apply length_map.
Qed.

(** The two facts the cache theorems assume of a cache hold of every cache
    reached from the empty one by writes. *)
Lemma save_all_at_invariant (capacity : nat) (puts : list cache_write) :
  forall article_cache,
    NoDup (dict_keys article_cache) ->
    (List.length article_cache <= capacity)%nat ->
    NoDup (dict_keys (save_all_at capacity puts article_cache))
    /\ (List.length (save_all_at capacity puts article_cache) <= capacity)%nat.
Proof.
  induction puts as [|p puts IH]; intros article_cache N L; simpl; [auto|].
  apply IH.
  - apply save_to_cache_at_NoDup. exact N.
  - rewrite save_to_cache_at_length by exact N. lia.
Qed.

(** ** Instances *)

Lemma sample_writes_keys_distinct : NoDup (map write_key sample_writes).
Proof.
  simpl. repeat constructor; simpl; intuition discriminate.
Defined.

Lemma sample_writes_increasing :
  StronglySorted (fun p q => write_now p < write_now q) sample_writes.
Proof.
  unfold sample_writes. repeat constructor.
Defined.

Lemma cache_bound_witness :
  save_all_at 1 sample_writes []
  = [("c", CacheItem.mk (sample_record "third" None) 20)].
Proof.
  assert (1 < List.length sample_writes)%nat as L by (simpl; lia).
  exact (proj2 (proj1 (proj2 cache_is_bounded_and_evicts_oldest) 1%nat sample_writes
                  sample_writes_keys_distinct sample_writes_increasing L)).
Defined.

Lemma write_frame_witness :
  dict_get
    (save_to_cache_at 1 [("a", CacheItem.mk (sample_record "first" None) 0)]
       "b" (sample_record "second" None) 10)
    "b"
  = Some (CacheItem.mk (sample_record "second" None) 10).
Proof.
  assert (NoDup (dict_keys [("a", CacheItem.mk (sample_record "first" None) 0)])) as N.
  { simpl. repeat constructor. simpl. tauto. }
  apply (proj2 (proj2 (proj1 write_touches_only_its_key 1%nat
                         [("a", CacheItem.mk (sample_record "first" None) 0)]
                         "b" (sample_record "second" None) 10 N))).
  - lia.
  - simpl. lia.
  - intros k item [H | []] _. inversion H. simpl. unfold Qle. simpl. lia.
Defined.

Lemma stale_hit_witness :
  process_article str_lower sample_nlp sample_md sample_html_to_text sample_md5
    sample_world 3601 3602 3601 sample_action sample_cache
  = (Returned {| data := sample_record "Al at the fair" None; cached := true |},
     [update_article_cache_task sample_link sample_link],
     sample_cache)
  /\ run_background_task str_lower sample_nlp sample_md sample_html_to_text
       offline_world 3700 3701 3701
       (update_article_cache_task sample_link sample_link) sample_cache
     = sample_cache.
Proof.
  destruct (stale_hit_is_served_and_refreshed_once str_lower sample_nlp sample_md
              sample_html_to_text sample_md5 sample_world 3601 3602 3601 sample_action
              sample_cache (CacheItem.mk (sample_record "Al at the fair" None) 0)
              eq_refl eq_refl eq_refl) as [Hserve Hrefresh].
  split; [exact Hserve|].
  apply (Hrefresh offline_world 3700 3701 3701
           (HTTPException 422 "Could not fetch article: connection refused")).
  reflexivity.
Defined.

Lemma failed_request_witness :
  process_article str_lower sample_nlp sample_md sample_html_to_text sample_md5
    offline_world 0 1 1 {| link := sample_link; cache := false |} sample_cache
  = (Raised (HTTPException 422 "Could not fetch article: connection refused"), [],
     sample_cache)
  /\ process_article str_lower sample_nlp sample_md sample_html_to_text sample_md5
       no_model_world 0 1 1 {| link := sample_link; cache := false |} sample_cache
     = (Raised (HTTPException 500
                  "Error processing article: Can't find model 'en_core_web_md'"),
        [], sample_cache).
Proof.
  split.
  - apply (proj1 (proj2 (proj2 (failed_request_leaves_cache_untouched str_lower sample_nlp
                                  sample_md sample_html_to_text sample_md5 offline_world 0 1 1
                                  {| link := sample_link; cache := false |} sample_cache
                                  (HTTPException 422
                                     "Could not fetch article: connection refused")
                                  eq_refl eq_refl)))
             (Exception "connection refused")).
    reflexivity.
  - apply (proj1 (failed_request_leaves_cache_untouched str_lower sample_nlp
                    sample_md sample_html_to_text sample_md5 no_model_world 0 1 1
                    {| link := sample_link; cache := false |} sample_cache
                    (Exception "Can't find model 'en_core_web_md'")
                    eq_refl eq_refl)).
Defined.

Lemma stale_monotone_witness :
  older_than_1_hour 4000 (CacheItem.mk (sample_record "Al at the fair" None) 0) = true.
Proof.
  apply (proj1 (proj2 (proj2 stale_iff_older_than_ttl_and_monotone)) 3601 4000).
  - reflexivity.
  - reflexivity.
Defined.

Lemma entity_filter_witness :
  In (EntityResponse.mk "PERSON" "Al")
     (filter_entities str_lower sample_doc EntityFilterOptions.default).
Proof.
  destruct (proj1 filter_entities_filters_and_deduplicates str_lower sample_doc
              EntityFilterOptions.default) as [_ [_ [_ [_ [_ Hfirst]]]]].
  apply (Hfirst [] (EntityResponse.mk "PERSON" "Al") [EntityResponse.mk "PERSON" "al"]).
  - reflexivity.
  - intros [y [[] _]].
Defined.

(** The listing of a three-item cache: total 3, second page of size 2. *)
Example cached_articles_page :
  let article_cache :=
    save_all_at 100 sample_writes
      [("z", CacheItem.mk (sample_record "dated" (Some {| wall := 15000000; tzinfo := Some 0%Z |})) 30)] in
  let response := get_cached_articles sample_fromtimestamp 2 1 article_cache in
  total_articles response = 4%nat
  /\ map CachedArticleResponse.cache_key (articles response) = ["z"; "b"].
Proof. split; reflexivity. Qed.

(** * Further properties of the cache *)

Lemma sort_stable_app_first {A K : Type} (le : K -> K -> bool) (key : A -> K)
  (l : list A) (x : A) :
  (forall y, In y l -> le (key y) (key x) = false) ->
  sort_stable le key (l ++ [x]) = x :: sort_stable le key l.
Proof.
  induction l as [|y l IH]; intros H; simpl; [reflexivity|].
  rewrite IH by (intros z Hz; apply H; right; exact Hz).
  simpl. rewrite (H y (or_introl eq_refl)). reflexivity.
Qed.

Lemma filter_other_keys {V : Type} (d : dict V) (k : string) :
  ~ In k (dict_keys d) ->
  filter (fun p => negb (mem_string (fst p) [k])) d = d.
Proof.
  intros Hfresh. transitivity (filter (fun _ : string * V => true) d); [|apply filter_true].
  apply filter_ext_in. intros [k' v] Hin. simpl.
  destruct (String.eqb k' k) eqn:E; [|reflexivity].
  apply String.eqb_eq in E. subst k'. exfalso. apply Hfresh.
  apply in_map_iff. exists (k, v). auto.
Qed.

(** X1. [manage_cache_size] leaves a cache within its bound as it is, and
    applying it twice is applying it once. *)
Theorem manage_cache_size_is_idempotent :
  forall capacity article_cache,
    NoDup (dict_keys article_cache) ->
    ((List.length article_cache <= capacity)%nat ->
     manage_cache_size_at capacity article_cache = article_cache)
    /\ manage_cache_size_at capacity (manage_cache_size_at capacity article_cache)
       = manage_cache_size_at capacity article_cache.
Proof.
  intros capacity article_cache N.
  assert (forall c : Cache, (List.length c <= capacity)%nat ->
                            manage_cache_size_at capacity c = c) as Hsmall.
  { intros c H. unfold manage_cache_size_at.
    destruct (capacity <? List.length c)%nat eqn:E; [|reflexivity].
    apply Nat.ltb_lt in E. lia. }
  split; [apply Hsmall|].
  apply Hsmall. rewrite manage_cache_size_at_length by exact N. lia.
Qed.

Lemma manage_cache_size_idempotent_witness :
  manage_cache_size_at 1 (manage_cache_size_at 1 (map entry_of sample_writes))
  = manage_cache_size_at 1 (map entry_of sample_writes).
Proof.
  apply (proj2 (manage_cache_size_is_idempotent 1 (map entry_of sample_writes)
                  sample_writes_keys_distinct)).
Defined.

(** X2. Writing again under a key the cache already holds, in a cache within
    its bound, replaces the item where it stands: the keys and their order
    are the same, nothing is evicted, the key now gives the new item and
    every other key gives what it gave. *)
Theorem rewrite_of_a_cached_key_evicts_nothing :
  forall capacity article_cache cache_key result now old,
    NoDup (dict_keys article_cache) ->
    (List.length article_cache <= capacity)%nat ->
    dict_get article_cache cache_key = Some old ->
    let after := save_to_cache_at capacity article_cache cache_key result now in
    dict_keys after = dict_keys article_cache
    /\ dict_get after cache_key = Some (CacheItem.mk result now)
    /\ (forall k, k <> cache_key -> dict_get after k = dict_get article_cache k).
Proof.
  intros capacity article_cache cache_key result now old N L G after.
  destruct (dict_set_present _ article_cache cache_key (CacheItem.mk result now) old G)
    as [Ekeys Elen].
  assert (after = dict_set article_cache cache_key (CacheItem.mk result now)) as ->.
  { apply save_to_cache_at_no_eviction. rewrite Elen. exact L. }
  split; [exact Ekeys|]. split; [apply dict_get_set_same|].
  intros k Hne. apply dict_get_set_other. exact Hne.
Qed.

Lemma rewrite_of_a_cached_key_witness :
  dict_keys (save_to_cache_at 3 (map entry_of sample_writes) "b"
               (sample_record "second, again" None) 30)
  = ["a"; "b"; "c"].
Proof.
  apply (rewrite_of_a_cached_key_evicts_nothing 3 (map entry_of sample_writes) "b"
           (sample_record "second, again" None) 30
           (CacheItem.mk (sample_record "second" None) 10)
           sample_writes_keys_distinct).
  - simpl. lia.
  - reflexivity.
Defined.

(** X3. A write under a new key into a full cache, stamped earlier than
    every item the cache holds (the wall clock went back), is evicted by its
    own [manage_cache_size]: the cache is left exactly as it was. *)
Theorem write_stamped_before_a_full_cache_is_dropped :
  forall capacity article_cache cache_key result now,
    NoDup (dict_keys article_cache) ->
    List.length article_cache = capacity ->
    dict_get article_cache cache_key = None ->
    (forall k item, In (k, item) article_cache -> now < CacheItem.timestamp item) ->
    save_to_cache_at capacity article_cache cache_key result now = article_cache.
Proof.
  intros capacity article_cache cache_key result now N L G Hts.
  set (new_item := CacheItem.mk result now).
  set (written := dict_set article_cache cache_key new_item).
  assert (~ In cache_key (dict_keys article_cache)) as Hfresh by (apply dict_get_None; exact G).
  assert (keys_to_remove capacity written = [cache_key]) as Hrem.
  { unfold keys_to_remove.
    assert (dict_keys written = dict_keys article_cache ++ [cache_key]) as ->.
    { unfold written. rewrite dict_set_fresh by exact G.
      unfold dict_keys. rewrite map_app. reflexivity. }
    assert (List.length written = S capacity) as ->.
    { unfold written. rewrite dict_set_fresh by exact G. rewrite length_app. simpl. lia. }
    replace (S capacity - capacity)%nat with 1%nat by lia.
    unfold sorted. rewrite sort_stable_app_first; [reflexivity|].
    intros y Hy.
    assert (y <> cache_key) as Hne by (intros ->; contradiction).
    unfold timestamp_of, written. rewrite dict_get_set_same, dict_get_set_other by exact Hne.
    unfold dict_keys in Hy. apply in_map_iff in Hy. destruct Hy as [[y' item] [E Hin]].
    simpl in E. subst y'. rewrite (dict_get_In _ _ _ _ N Hin). simpl.
    destruct (Qle_bool (CacheItem.timestamp item) now) eqn:Q; [|reflexivity].
    apply Qle_bool_iff in Q. specialize (Hts y item Hin). exfalso. lra. }
  unfold save_to_cache_at. fold new_item written.
  rewrite manage_cache_size_at_filter, Hrem.
  unfold written. rewrite dict_set_fresh by exact G. rewrite filter_app.
  rewrite filter_other_keys by exact Hfresh.
  simpl. rewrite String.eqb_refl. simpl. apply app_nil_r.
Qed.

Lemma write_stamped_before_witness :
  save_to_cache_at 3 (map entry_of sample_writes) "d" (sample_record "late" None) (-5)
  = map entry_of sample_writes.
Proof.
  apply (write_stamped_before_a_full_cache_is_dropped 3 (map entry_of sample_writes) "d"
           (sample_record "late" None) (-5) sample_writes_keys_distinct).
  - reflexivity.
  - reflexivity.
  - intros k item H. simpl in H.
    destruct H as [H | [H | [H | []]]]; inversion H; subst; reflexivity.
Defined.

(** X4. Eviction is first in, first out under a clock that never goes back:
    after any writes with distinct keys and timestamps that do not decrease
    (equal ones allowed), started on the empty cache, the cache holds the
    last [capacity] items written, in the order written; among items of
    equal age the ones written first go first. *)
Theorem eviction_is_first_in_first_out :
  forall capacity puts,
    NoDup (map write_key puts) ->
    StronglySorted (fun p q => write_now p <= write_now q) puts ->
    save_all_at capacity puts []
    = skipn (List.length puts - capacity) (map entry_of puts).
Proof.
  intros capacity puts.
  induction puts as [|p puts IH] using rev_ind; intros N S; [reflexivity|].
  unfold save_all_at in *. rewrite fold_left_app. simpl.
  rewrite map_app in N.
  rewrite IH; [|apply NoDup_app_remove_r in N; exact N | apply StronglySorted_app_l in S; exact S].
  set (L := map entry_of (puts ++ [p])).
  set (m := (List.length puts - capacity)%nat).
  assert (NoDup (dict_keys L)) as NL.
  { unfold L, dict_keys. rewrite map_map. simpl. rewrite map_app. exact N. }
  assert (StronglySorted by_timestamp L) as SL.
  { unfold L. apply StronglySorted_map. exact S. }
  assert (skipn m (map entry_of puts) ++ [entry_of p] = skipn m L) as Ewritten.
  { unfold L. rewrite map_app, skipn_app, length_map. simpl.
    replace (m - List.length puts)%nat with 0%nat by (unfold m; lia). reflexivity. }
  assert (dict_get (skipn m (map entry_of puts)) (write_key p) = None) as Hfresh.
  { apply dict_get_None. intros Hin. unfold dict_keys in Hin.
    rewrite <- skipn_map in Hin. apply In_skipn_list in Hin. rewrite map_map in Hin. simpl in Hin.
    apply NoDup_remove_2 in N. rewrite app_nil_r in N. apply N. exact Hin. }
  unfold save_to_cache_at.
  rewrite dict_set_fresh by exact Hfresh.
  change (write_key p, CacheItem.mk (write_result p) (write_now p)) with (entry_of p).
  rewrite Ewritten.
  rewrite manage_cache_size_at_sorted.
  - rewrite skipn_skipn. f_equal. rewrite length_skipn. unfold L.
    rewrite length_map, length_app. simpl. unfold m. lia.
  - unfold dict_keys. rewrite <- skipn_map. apply NoDup_skipn. exact NL.
  - apply StronglySorted_skipn. exact SL.
Qed.

Lemma eviction_is_first_in_first_out_witness :
  save_all_at 2 tied_writes []
  = [("b", CacheItem.mk (sample_record "second" None) 5);
     ("c", CacheItem.mk (sample_record "third" None) 5)].
Proof.
  apply (eviction_is_first_in_first_out 2 tied_writes).
  - simpl. repeat constructor; simpl; intuition discriminate.
  - unfold tied_writes. repeat constructor; simpl; unfold Qle; simpl; lia.
Defined.

(** * Further properties of the routes on the cache *)

Section ServiceFacts.

Variable lower : string -> string.
Variable nlp : string -> Doc.
Variable md : string -> string.
Variable html_to_text : string -> string.
Variable md5_hexdigest : string -> string.

Local Abbreviation route := (process_article lower nlp md html_to_text md5_hexdigest).
Local Abbreviation enrich := (process_article_data lower nlp md html_to_text).
Local Abbreviation refresh := (update_article_cache lower nlp md html_to_text).
Local Abbreviation key_of := (get_cache_key md5_hexdigest).

Lemma older_than_1_hour_false now cached_item :
  now - CacheItem.timestamp cached_item <= 3600 ->
  older_than_1_hour now cached_item = false.
Proof.
  intros H. destruct (older_than_1_hour now cached_item) eqn:O; [|reflexivity].
  apply older_than_1_hour_spec in O. exfalso. lra.
Qed.

(** An event leaves the cache alone or makes the write of a run that
    returned. *)
Lemma cache_after_cases article_cache ev :
  cache_after lower nlp md html_to_text md5_hexdigest article_cache ev = article_cache
  \/ exists cache_key result now,
       run_of lower nlp md html_to_text ev = Returned result
       /\ cache_after lower nlp md html_to_text md5_hexdigest article_cache ev
          = save_to_cache_at CACHE_SIZE article_cache cache_key result now.
Proof.
  destruct ev as [w ts te now article | w ts te now url cache_key]; simpl.
  - unfold process_article.
    destruct (if cache article then dict_get article_cache (key_of (link article)) else None);
      [left; reflexivity|].
    destruct (enrich w ts te (link article)) as [result | [c d | m]];
      [right | left; reflexivity | left; reflexivity].
    exists (key_of (link article)), result, now. split; reflexivity.
  - unfold update_article_cache.
    destruct (enrich w ts te url) as [result | e]; [right | left; reflexivity].
    exists cache_key, result, now. split; reflexivity.
Qed.

Lemma cache_after_all_invariant events :
  forall article_cache,
    NoDup (dict_keys article_cache) ->
    let final := cache_after_all lower nlp md html_to_text md5_hexdigest events article_cache in
    NoDup (dict_keys final)
    /\ (List.length final <= Nat.max (List.length article_cache) CACHE_SIZE)%nat
    /\ (forall k item,
          In (k, item) final ->
          In (k, item) article_cache
          \/ exists ev, In ev events
                        /\ run_of lower nlp md html_to_text ev
                           = Returned (CacheItem.data item)).
Proof.
  induction events as [|ev events IH]; intros article_cache N; simpl.
  - split; [exact N|]. split; [lia | auto].
  - destruct (cache_after_cases article_cache ev) as [E | [k [result [now [Hrun E]]]]];
      rewrite E.
    + destruct (IH article_cache N) as [N' [L' P']].
      split; [exact N'|]. split; [exact L'|].
      intros k item Hin. destruct (P' k item Hin) as [H | [ev' [Hev Hr]]]; [left; exact H|].
      right. exists ev'. split; [right; exact Hev | exact Hr].
    + assert (NoDup (dict_keys (save_to_cache_at CACHE_SIZE article_cache k result now))) as N1.
      { apply save_to_cache_at_NoDup. exact N. }
      destruct (IH _ N1) as [N' [L' P']].
      split; [exact N'|]. split.
      * rewrite save_to_cache_at_length in L' by exact N. lia.
      * intros k' item Hin. destruct (P' k' item Hin) as [H | [ev' [Hev Hr]]].
        -- destruct (save_to_cache_at_In _ _ _ _ _ N _ _ H) as [[_ ->] | [_ Hold]].
           ++ right. exists ev. split; [left; reflexivity | exact Hrun].
           ++ left. exact Hold.
        -- right. exists ev'. split; [right; exact Hev | exact Hr].
Qed.

End ServiceFacts.

(** X5. A request with caching enabled whose key is in the cache never runs
    the enrichment: whatever the services would answer and whatever the
    clocks of the run, it returns the cached record marked as cached and
    leaves the cache as it is, and it schedules nothing when the item is at
    most 3600 seconds old. *)
Theorem cache_hit_needs_no_enrichment :
  forall lower nlp md html_to_text md5_hexdigest w w' t_start t_end t_start' t_end' now
         article article_cache cached_item,
    cache article = true ->
    dict_get article_cache (get_cache_key md5_hexdigest (link article)) = Some cached_item ->
    let answer :=
      process_article lower nlp md html_to_text md5_hexdigest w t_start t_end now article
        article_cache in
    answer
    = process_article lower nlp md html_to_text md5_hexdigest w' t_start' t_end' now article
        article_cache
    /\ fst (fst answer) = Returned {| data := CacheItem.data cached_item; cached := true |}
    /\ snd answer = article_cache
    /\ (now - CacheItem.timestamp cached_item <= 3600 -> snd (fst answer) = []).
Proof.
  intros lower nlp md h2t md5 w w' ts te ts' te' now article article_cache item Hc Hget answer.
  unfold answer, process_article. rewrite Hc, Hget. simpl.
  repeat split. intros Hfresh. rewrite older_than_1_hour_false by exact Hfresh. reflexivity.
Qed.

Lemma cache_hit_witness :
  process_article str_lower sample_nlp sample_md sample_html_to_text sample_md5
    offline_world 0 1 100 sample_action sample_cache
  = process_article str_lower sample_nlp sample_md sample_html_to_text sample_md5
      sample_world 7 8 100 sample_action sample_cache.
Proof.
  apply (cache_hit_needs_no_enrichment str_lower sample_nlp sample_md sample_html_to_text
           sample_md5 offline_world sample_world 0 1 7 8 100 sample_action sample_cache
           (CacheItem.mk (sample_record "Al at the fair" None) 0) eq_refl eq_refl).
Defined.

(** X6. What a request stores it serves: after a request that ran the
    enrichment and stored its record, in a cache within its bound holding
    nothing more recent, a request for the same link with caching enabled,
    made at most 3600 seconds later, returns that same record marked as
    cached, whatever the services answer by then, schedules nothing and
    leaves the cache as it is. *)
Theorem stored_record_is_served_within_the_hour :
  forall lower nlp md html_to_text md5_hexdigest w w' t_start t_end t_start' t_end' now now'
         article article' article_cache result,
    NoDup (dict_keys article_cache) ->
    (List.length article_cache <= CACHE_SIZE)%nat ->
    (forall k item, In (k, item) article_cache ->
                    k <> get_cache_key md5_hexdigest (link article) ->
                    CacheItem.timestamp item <= now) ->
    (if cache article
     then dict_get article_cache (get_cache_key md5_hexdigest (link article))
     else None) = None ->
    process_article_data lower nlp md html_to_text w t_start t_end (link article)
    = Returned result ->
    link article' = link article ->
    cache article' = true ->
    now' - now <= 3600 ->
    let first :=
      process_article lower nlp md html_to_text md5_hexdigest w t_start t_end now article
        article_cache in
    fst first = (Returned {| data := result; cached := false |}, [])
    /\ process_article lower nlp md html_to_text md5_hexdigest w' t_start' t_end' now' article'
         (snd first)
       = (Returned {| data := result; cached := true |}, [], snd first).
Proof.
  intros lower nlp md h2t md5 w w' ts te ts' te' now now' article article' article_cache result
         N L Hts Hmiss Hrun Hlink Hc Hsoon first.
  assert (first = (Returned {| data := result; cached := false |}, [],
                   save_to_cache_at CACHE_SIZE article_cache
                     (get_cache_key md5 (link article)) result now)) as E.
  { unfold first, process_article. rewrite Hmiss, Hrun. reflexivity. }
  rewrite E. simpl. split; [reflexivity|].
  unfold process_article. rewrite Hlink, Hc.
  rewrite (save_to_cache_at_keeps_new CACHE_SIZE article_cache _ result now N);
    [|unfold CACHE_SIZE; lia | exact L | exact Hts].
  rewrite older_than_1_hour_false by exact Hsoon. reflexivity.
Qed.

Lemma stored_record_witness :
  process_article str_lower sample_nlp sample_md sample_html_to_text sample_md5
    offline_world 50 51 3600 sample_action
    (snd (process_article str_lower sample_nlp sample_md sample_html_to_text sample_md5
            sample_world 0 1 1 sample_action []))
  = (Returned
       {| data :=
            ArticleResponse.mk "Al at the fair" None (Article.text sample_article)
              "Al went to the fair." "<p>Al went to the fair.</p>" "Al went to the fair."
              [KeywordResponse.mk "fair" (1 # 10)] ["Al"] None []
              [EntityResponse.mk "PERSON" "Al"] []
              [("twitter", AnyList ["https://twitter.com/al"])]
              (SentimentResponse.mk (1 # 2) (1 # 4) 0 (3 # 4))
              [("uid", AnyStr "al")] [("reddit", AnyInt 3)] (1 - 0);
          cached := true |},
     [],
     snd (process_article str_lower sample_nlp sample_md sample_html_to_text sample_md5
            sample_world 0 1 1 sample_action [])).
Proof.
  apply (proj2 (stored_record_is_served_within_the_hour str_lower sample_nlp sample_md
                  sample_html_to_text sample_md5 sample_world offline_world 0 1 50 51 1 3600
                  sample_action sample_action [] _
                  (NoDup_nil _) (Nat.le_0_l _)
                  (fun k item (H : In (k, item) []) _ => match H with end)
                  eq_refl eq_refl eq_refl eq_refl
                  ltac:(unfold Qle; simpl; lia))).
Defined.

(** X7. Stale while revalidate, end to end: a request that finds an item
    older than 3600 seconds serves it and schedules the refresh; once that
    refresh has run and its enrichment returned, in a cache within its bound
    holding nothing more recent, a request made at most 3600 seconds after
    the refresh is served the refreshed record and schedules no further
    refresh. *)
Theorem refreshed_record_replaces_the_stale_one :
  forall lower nlp md html_to_text md5_hexdigest w1 w2 w3 s1 e1 s2 e2 s3 e3 now1 now2 now3
         article article_cache stale fresh,
    NoDup (dict_keys article_cache) ->
    (List.length article_cache <= CACHE_SIZE)%nat ->
    cache article = true ->
    dict_get article_cache (get_cache_key md5_hexdigest (link article)) = Some stale ->
    3600 < now1 - CacheItem.timestamp stale ->
    process_article_data lower nlp md html_to_text w2 s2 e2 (link article) = Returned fresh ->
    (forall k item, In (k, item) article_cache ->
                    k <> get_cache_key md5_hexdigest (link article) ->
                    CacheItem.timestamp item <= now2) ->
    now3 - now2 <= 3600 ->
    exists task refreshed,
      process_article lower nlp md html_to_text md5_hexdigest w1 s1 e1 now1 article
        article_cache
      = (Returned {| data := CacheItem.data stale; cached := true |}, [task], article_cache)
      /\ run_background_task lower nlp md html_to_text w2 s2 e2 now2 task article_cache
         = refreshed
      /\ process_article lower nlp md html_to_text md5_hexdigest w3 s3 e3 now3 article
           refreshed
         = (Returned {| data := fresh; cached := true |}, [], refreshed).
Proof.
  intros lower nlp md h2t md5 w1 w2 w3 s1 e1 s2 e2 s3 e3 now1 now2 now3
         article article_cache stale fresh N L Hc Hget Hstale Hrun Hts Hsoon.
  eexists. eexists. split; [|split; [reflexivity|]].
  - unfold process_article. rewrite Hc, Hget.
    apply older_than_1_hour_spec in Hstale. rewrite Hstale. reflexivity.
  - unfold run_background_task, update_article_cache. rewrite Hrun.
    unfold process_article. rewrite Hc.
    unfold save_to_cache.
    rewrite (save_to_cache_at_keeps_new CACHE_SIZE article_cache _ fresh now2 N);
      [|unfold CACHE_SIZE; lia | exact L | exact Hts].
    rewrite older_than_1_hour_false by exact Hsoon. reflexivity.
Qed.

Lemma refreshed_record_witness :
  exists task refreshed,
    process_article str_lower sample_nlp sample_md sample_html_to_text sample_md5
      offline_world 0 1 3601 sample_action sample_cache
    = (Returned {| data := sample_record "Al at the fair" None; cached := true |},
       [task], sample_cache)
    /\ run_background_task str_lower sample_nlp sample_md sample_html_to_text
         sample_world 3602 3603 3603 task sample_cache
       = refreshed
    /\ fst (fst (process_article str_lower sample_nlp sample_md sample_html_to_text sample_md5
                   offline_world 0 1 3700 sample_action refreshed))
       = Returned
           {| data :=
                ArticleResponse.mk "Al at the fair" None (Article.text sample_article)
                  "Al went to the fair." "<p>Al went to the fair.</p>" "Al went to the fair."
                  [KeywordResponse.mk "fair" (1 # 10)] ["Al"] None []
                  [EntityResponse.mk "PERSON" "Al"] []
                  [("twitter", AnyList ["https://twitter.com/al"])]
                  (SentimentResponse.mk (1 # 2) (1 # 4) 0 (3 # 4))
                  [("uid", AnyStr "al")] [("reddit", AnyInt 3)] (3603 - 3602);
              cached := true |}.
Proof.
  assert (NoDup (dict_keys sample_cache)) as N.
  { simpl. repeat constructor. simpl. tauto. }
  destruct (refreshed_record_replaces_the_stale_one str_lower sample_nlp sample_md
              sample_html_to_text sample_md5 offline_world sample_world offline_world
              0 1 3602 3603 0 1 3601 3603 3700 sample_action sample_cache
              (CacheItem.mk (sample_record "Al at the fair" None) 0) _
              N ltac:(simpl; unfold CACHE_SIZE; lia) eq_refl eq_refl eq_refl eq_refl
              ltac:(intros k item [H | []] Hne; inversion H; subst; exfalso; apply Hne;
                    reflexivity)
              ltac:(unfold Qle; simpl; lia))
    as [task [refreshed [H1 [H2 H3]]]].
  exists task, refreshed. split; [exact H1|]. split; [exact H2|].
  rewrite H3. reflexivity.
Defined.

(** X8. Over any run of the service from the empty cache, whatever requests
    and refreshes happen, in whatever order, with whatever answers from the
    services and readings of the clock, the cache never holds two items
    under one key and never more than 100 items. *)
Theorem cache_stays_well_formed_over_any_run :
  forall lower nlp md html_to_text md5_hexdigest events,
    let final := cache_after_all lower nlp md html_to_text md5_hexdigest events [] in
    NoDup (dict_keys final) /\ (List.length final <= 100)%nat.
Proof.
  intros lower nlp md h2t md5 events final.
  destruct (cache_after_all_invariant lower nlp md h2t md5 events [] (NoDup_nil _))
    as [N [L _]].
  split; [exact N | exact L].
Qed.

(** X9. Every record in the cache was returned by an enrichment run: over
    any run of the service from the empty cache, each cached item holds the
    record that the run of one of the events returned; a run that raised
    leaves nothing in the cache. *)
Theorem cached_records_come_from_runs_that_returned :
  forall lower nlp md html_to_text md5_hexdigest events k item,
    In (k, item) (cache_after_all lower nlp md html_to_text md5_hexdigest events []) ->
    exists ev,
      In ev events
      /\ run_of lower nlp md html_to_text ev = Returned (CacheItem.data item).
Proof.
  intros lower nlp md h2t md5 events k item Hin.
  destruct (cache_after_all_invariant lower nlp md h2t md5 events [] (NoDup_nil _))
    as [_ [_ P]].
  destruct (P k item Hin) as [[] | H]. exact H.
Qed.

Lemma cached_records_witness :
  exists ev,
    In ev [Request offline_world 0 1 1 sample_action;
           Request sample_world 2 3 3 sample_action]
    /\ run_of str_lower sample_nlp sample_md sample_html_to_text ev
       = Returned
           (ArticleResponse.mk "Al at the fair" None (Article.text sample_article)
              "Al went to the fair." "<p>Al went to the fair.</p>" "Al went to the fair."
              [KeywordResponse.mk "fair" (1 # 10)] ["Al"] None []
              [EntityResponse.mk "PERSON" "Al"] []
              [("twitter", AnyList ["https://twitter.com/al"])]
              (SentimentResponse.mk (1 # 2) (1 # 4) 0 (3 # 4))
              [("uid", AnyStr "al")] [("reddit", AnyInt 3)] (3 - 2)).
Proof.
  apply (cached_records_come_from_runs_that_returned str_lower sample_nlp sample_md
           sample_html_to_text sample_md5
           [Request offline_world 0 1 1 sample_action;
            Request sample_world 2 3 3 sample_action]
           sample_link
           (CacheItem.mk
              (ArticleResponse.mk "Al at the fair" None (Article.text sample_article)
                 "Al went to the fair." "<p>Al went to the fair.</p>" "Al went to the fair."
                 [KeywordResponse.mk "fair" (1 # 10)] ["Al"] None []
                 [EntityResponse.mk "PERSON" "Al"] []
                 [("twitter", AnyList ["https://twitter.com/al"])]
                 (SentimentResponse.mk (1 # 2) (1 # 4) 0 (3 # 4))
                 [("uid", AnyStr "al")] [("reddit", AnyInt 3)] (3 - 2))
              3)).
  left. reflexivity.
Defined.

(** X10. While every enrichment run raises, the cache does not change: any
    run of requests and refreshes whose enrichments all fail leaves every
    item, its record and its timestamp in place. *)
Theorem failing_runs_never_change_the_cache :
  forall lower nlp md html_to_text md5_hexdigest events article_cache,
    (forall ev, In ev events ->
                exists e, run_of lower nlp md html_to_text ev = Raised e) ->
    cache_after_all lower nlp md html_to_text md5_hexdigest events article_cache
    = article_cache.
Proof.
  intros lower nlp md h2t md5 events.
  induction events as [|ev events IH]; intros article_cache Hfail; simpl; [reflexivity|].
  destruct (cache_after_cases lower nlp md h2t md5 article_cache ev)
    as [E | [k [result [now [Hrun _]]]]].
  - rewrite E. apply IH. intros ev' Hev. apply Hfail. right. exact Hev.
  - destruct (Hfail ev (or_introl eq_refl)) as [e He]. congruence.
Qed.

Lemma failing_runs_witness :
  cache_after_all str_lower sample_nlp sample_md sample_html_to_text sample_md5
    [Request offline_world 0 1 4000 sample_action;
     Refresh offline_world 4001 4002 4002 sample_link sample_link;
     Request offline_world 0 1 4003 {| link := "https://example.com/other"; cache := false |}]
    sample_cache
  = sample_cache.
Proof.
  apply failing_runs_never_change_the_cache.
  intros ev [<- | [<- | [<- | []]]]; eexists; reflexivity.
Defined.

(** * Further properties of the listing *)

Lemma firstn_add_skipn {A : Type} (a b : nat) :
  forall l : list A, firstn (a + b) l = firstn a l ++ firstn b (skipn a l).
Proof.
  induction a as [|a IH]; intros l; simpl; [reflexivity|].
  destruct l as [|x l]; simpl.
  - rewrite firstn_nil. reflexivity.
  - rewrite IH. reflexivity.
Qed.

Lemma Zge_bool_total (a b : Z) : (b <=? a)%Z = true \/ (a <=? b)%Z = true.
Proof. destruct (Z.le_ge_cases a b); [right | left]; apply Z.leb_le; assumption. Qed.

Lemma Zge_bool_trans (a b c : Z) :
  (b <=? a)%Z = true -> (c <=? b)%Z = true -> (c <=? a)%Z = true.
Proof. rewrite !Z.leb_le. lia. Qed.

Section ListingFacts.

Variable fromtimestamp : Q -> Z.

Local Abbreviation rows := (cached_articles_of fromtimestamp).
Local Abbreviation listed :=
  (fun item : cached_article =>
     CachedArticleResponse.mk (ca_cache_key item) (ca_cached_at item) (ca_article item)).

Lemma articles_unfold limit offset article_cache :
  articles (get_cached_articles fromtimestamp limit offset article_cache)
  = map listed (firstn limit (skipn offset (sort_reverse ca_creation_date (rows article_cache)))).
Proof.
  unfold get_cached_articles, slice. simpl.
  replace (offset + limit - offset)%nat with limit by lia. reflexivity.
Qed.

Lemma sort_reverse_Permutation (l : list cached_article) :
  Permutation (sort_reverse ca_creation_date l) l.
Proof. apply sort_stable_Permutation. Qed.

Lemma listing_date_listed article_cache x :
  In x (rows article_cache) -> listing_date (listed x) = ca_creation_date x.
Proof.
  unfold cached_articles_of. intros Hx. apply in_map_iff in Hx.
  destruct Hx as [item [<- _]]. unfold listing_date, creation_date_of. simpl.
  destruct (ArticleResponse.date (CacheItem.data (snd item))) as [d|];
    [destruct (tzinfo d)|]; reflexivity.
Qed.

End ListingFacts.

(** X11. Pages of the listing fit together: the page of [l1] items from
    [offset] followed by the page of [l2] items from [offset + l1] is the
    page of [l1 + l2] items from [offset]; a page holds
    [min limit (size - offset)] items, so none from an offset at or past the
    end. *)
Theorem listing_pages_fit_together :
  forall fromtimestamp l1 l2 limit offset article_cache,
    articles (get_cached_articles fromtimestamp l1 offset article_cache)
    ++ articles (get_cached_articles fromtimestamp l2 (offset + l1) article_cache)
    = articles (get_cached_articles fromtimestamp (l1 + l2) offset article_cache)
    /\ List.length (articles (get_cached_articles fromtimestamp limit offset article_cache))
       = Nat.min limit (List.length article_cache - offset)
    /\ ((List.length article_cache <= offset)%nat ->
        articles (get_cached_articles fromtimestamp limit offset article_cache) = []).
Proof.
  intros fromtimestamp l1 l2 limit offset article_cache.
  assert (List.length (articles (get_cached_articles fromtimestamp limit offset article_cache))
          = Nat.min limit (List.length article_cache - offset)) as Hlen.
  { rewrite articles_unfold, length_map, length_firstn, length_skipn.
    rewrite (Permutation_length (sort_reverse_Permutation _)).
    unfold cached_articles_of. rewrite length_map. reflexivity. }
  split; [|split; [exact Hlen|]].
  - rewrite !articles_unfold, <- map_app. f_equal.
    rewrite firstn_add_skipn, skipn_skipn, (Nat.add_comm l1 offset). reflexivity.
  - intros Hpast. apply length_zero_iff_nil. rewrite Hlen. lia.
Qed.

(** X12. A page from offset 0 that is at least as long as the cache lists
    every cached key, each as often as the cache holds it: the keys of the
    page are a permutation of the keys of the cache. *)
Theorem full_listing_has_every_cached_key :
  forall fromtimestamp limit article_cache,
    (List.length article_cache <= limit)%nat ->
    Permutation
      (map CachedArticleResponse.cache_key
         (articles (get_cached_articles fromtimestamp limit 0 article_cache)))
      (dict_keys article_cache).
Proof.
  intros fromtimestamp limit article_cache Hlimit.
  rewrite articles_unfold. simpl skipn.
  rewrite firstn_all2.
  - rewrite map_map. simpl.
    eapply Permutation_trans; [apply Permutation_map, sort_reverse_Permutation|].
    unfold cached_articles_of, dict_keys. rewrite map_map. simpl. apply Permutation_refl.
  - rewrite (Permutation_length (sort_reverse_Permutation _)).
    unfold cached_articles_of. rewrite length_map. exact Hlimit.
Qed.

Lemma full_listing_witness :
  Permutation
    (map CachedArticleResponse.cache_key
       (articles (get_cached_articles sample_fromtimestamp 50 0 (map entry_of sample_writes))))
    ["a"; "b"; "c"].
Proof.
  apply (full_listing_has_every_cached_key sample_fromtimestamp 50 (map entry_of sample_writes)).
  simpl. lia.
Defined.

(** X13. The listing keeps items of one date in the order the cache holds
    them: in a page from offset 0 at least as long as the cache, the items
    sorted on a given date are the cached items with that date, in cache
    order. *)
Theorem listing_keeps_cache_order_within_a_date :
  forall fromtimestamp limit article_cache t,
    (List.length article_cache <= limit)%nat ->
    filter (fun a => (listing_date a =? t)%Z)
      (articles (get_cached_articles fromtimestamp limit 0 article_cache))
    = filter (fun a => (listing_date a =? t)%Z)
        (map (fun item =>
                CachedArticleResponse.mk (fst item)
                  (fromtimestamp (CacheItem.timestamp (snd item)))
                  (CacheItem.data (snd item)))
             article_cache).
Proof.
  intros fromtimestamp limit article_cache t Hlimit.
  set (rows := cached_articles_of fromtimestamp article_cache).
  set (listed := fun item : cached_article =>
         CachedArticleResponse.mk (ca_cache_key item) (ca_cached_at item) (ca_article item)).
  assert (map (fun item =>
                 CachedArticleResponse.mk (fst item)
                   (fromtimestamp (CacheItem.timestamp (snd item)))
                   (CacheItem.data (snd item)))
              article_cache
          = map listed rows) as ->.
  { unfold rows, cached_articles_of. rewrite map_map. reflexivity. }
  rewrite articles_unfold. simpl skipn. fold rows.
  rewrite firstn_all2.
  - change (fun item : cached_article =>
              CachedArticleResponse.mk (ca_cache_key item) (ca_cached_at item) (ca_article item))
      with listed.
    rewrite !filter_map_swap. f_equal.
    transitivity (filter (fun x => (ca_creation_date x =? t)%Z)
                    (sort_reverse ca_creation_date rows)).
    + apply filter_ext_in. intros x Hx.
      apply (Permutation_in _ (sort_reverse_Permutation rows)) in Hx.
      exact (f_equal (fun z => (z =? t)%Z)
               (listing_date_listed fromtimestamp article_cache x Hx)).
    + transitivity (filter (fun x => (ca_creation_date x =? t)%Z) rows).
      * unfold sort_reverse.
        apply (sort_stable_stable _ _ (fun a b => (b <=? a)%Z) ca_creation_date
                 Zge_bool_total Zge_bool_trans).
        intros x y Hx Hy. apply Z.eqb_eq in Hx, Hy. apply Z.leb_le. lia.
      * apply filter_ext_in. intros x Hx.
        exact (f_equal (fun z => (z =? t)%Z)
                 (eq_sym (listing_date_listed fromtimestamp article_cache x Hx))).
  - rewrite (Permutation_length (sort_reverse_Permutation _)).
    unfold rows, cached_articles_of. rewrite length_map. exact Hlimit.
Qed.

Lemma listing_keeps_cache_order_witness :
  map CachedArticleResponse.cache_key
    (filter (fun a => (listing_date a =? 5000000)%Z)
       (articles (get_cached_articles sample_fromtimestamp 50 0 (map entry_of tied_writes))))
  = ["a"; "b"; "c"].
Proof.
  rewrite (listing_keeps_cache_order_within_a_date sample_fromtimestamp 50
             (map entry_of tied_writes) 5000000 ltac:(simpl; lia)).
  reflexivity.
Defined.

(** * Further properties of the enrichment run *)

Lemma substring_0_length (n : nat) :
  forall s, String.length (substring 0 n s) = Nat.min n (String.length s).
Proof.
  induction n as [|n IH]; intros s; destruct s as [|c s]; simpl; try reflexivity.
  rewrite IH. reflexivity.
Qed.

Lemma substring_0_prefix (n : nat) :
  forall s, exists rest, s = (substring 0 n s ++ rest)%string.
Proof.
  induction n as [|n IH]; intros s; destruct s as [|c s]; simpl.
  - exists "". reflexivity.
  - exists (String c s). reflexivity.
  - exists "". reflexivity.
  - destruct (IH s) as [rest E]. exists rest. rewrite <- E. reflexivity.
Qed.

Lemma subsequence_In {A : Type} (s l : list A) :
  subsequence s l -> forall x, In x s -> In x l.
Proof.
  induction 1; simpl; intros y Hy; auto.
  destruct Hy; auto.
Qed.

Section FilterOutputFacts.

Variable lower : string -> string.

(** What [filter_entities] returns: no repeated key, and only entities that
    pass the two tests of the options. *)
Lemma filter_entities_output doc options :
  NoDup (map (entity_key lower) (filter_entities lower doc options))
  /\ (forall e, In e (filter_entities lower doc options) ->
                entity_kept options (span_of e) = true
                /\ In (span_of e) (ents doc)).
Proof.
  unfold filter_entities.
  rewrite (dedup_loop_first_occurrences lower _ [] [] []) by reflexivity. simpl.
  split; [apply first_occurrences_NoDup|].
  intros e He.
  apply (subsequence_In _ _ (first_occurrences_subsequence lower _ [])) in He.
  apply in_map_iff in He. destruct He as [ent [<- Hent]].
  apply filter_In in Hent. destruct ent as [l t]. simpl in *. tauto.
Qed.

Lemma entity_kept_spec options ent :
  entity_kept options ent = true
  <-> ~ In (Span.label_ ent) (EntityFilterOptions.exclude_types options)
      /\ (EntityFilterOptions.min_length options
          <= Z.of_nat (String.length (Span.text ent)))%Z.
Proof.
  unfold entity_kept. rewrite andb_true_iff, negb_true_iff, Z.leb_le.
  split; intros [H1 H2]; split; try exact H2.
  - intros Hin. apply mem_string_In in Hin. congruence.
  - destruct (mem_string _ _) eqn:M; [|reflexivity].
    apply mem_string_In in M. contradiction.
Qed.

(** A list without a repeated key, none of them met before, is kept whole. *)
Lemma first_occurrences_id (l : list EntityResponse.t) :
  forall earlier,
    NoDup (map (entity_key lower) l) ->
    (forall e, In e l -> ~ same_key_in lower e earlier) ->
    first_occurrences lower earlier l = l.
Proof.
  induction l as [|x l IH]; intros earlier N Hfresh; simpl; [reflexivity|].
  inversion N as [|? ? Hx N']; subst.
  destruct (existsb (fun y => pair_eqb (entity_key lower x) (entity_key lower y)) earlier)
    eqn:Seen.
  - exfalso. apply (Hfresh x (or_introl eq_refl)).
    apply existsb_same_key. exact Seen.
  - f_equal. apply IH; [exact N'|].
    intros e He [y [Hy E]]. apply in_app_or in Hy. destruct Hy as [Hy | [<- | []]].
    + apply (Hfresh e (or_intror He)). exists y. auto.
    + apply Hx. rewrite E. apply in_map. exact He.
Qed.

End FilterOutputFacts.

(** X14. The text of a fetched article is the parsed text or the fallback
    extraction from the page, and it is never shorter than the parsed text:
    a parsed text of 50 characters or more is kept, however long the
    fallback is; a shorter one is kept unless the fallback is strictly
    longer, and is replaced by the fallback when it is.  Title, page and
    article HTML are the parsed ones, and a summary the parser gave is
    kept. *)
Theorem fetched_text_is_never_shorter_than_parsed :
  forall html_to_text w link article,
    fetch_article html_to_text w link = Returned article ->
    exists parsed,
      newspaper w link = Returned parsed
      /\ let fallback := html_to_text (Article.html parsed) in
         (Article.text article = Article.text parsed \/ Article.text article = fallback)
         /\ (String.length (Article.text parsed) <= String.length (Article.text article))%nat
         /\ ((50 <= String.length (Article.text parsed))%nat ->
             Article.text article = Article.text parsed)
         /\ ((String.length fallback <= String.length (Article.text parsed))%nat ->
             Article.text article = Article.text parsed)
         /\ ((String.length (Article.text parsed) < 50)%nat ->
             (String.length (Article.text parsed) < String.length fallback)%nat ->
             Article.text article = fallback)
         /\ Article.title article = Article.title parsed
         /\ Article.html article = Article.html parsed
         /\ Article.article_html article = Article.article_html parsed
         /\ (Article.summary parsed <> "" -> Article.summary article = Article.summary parsed).
Proof.
  intros h2t w link article Hf. unfold fetch_article in Hf.
  destruct (newspaper w link) as [parsed | e]; [|discriminate].
  exists parsed. split; [reflexivity|]. cbv zeta.
  set (fallback := h2t (Article.html parsed)) in *.
  set (chosen :=
         if (String.length (Article.text parsed) <? 50)%nat
         then if (String.length (Article.text parsed) <? String.length fallback)%nat
              then Article.set_text parsed fallback else parsed
         else parsed) in *.
  assert (Article.text article = Article.text chosen
          /\ Article.title article = Article.title chosen
          /\ Article.html article = Article.html chosen
          /\ Article.article_html article = Article.article_html chosen
          /\ (Article.summary chosen <> "" -> Article.summary article = Article.summary chosen))
    as [Et [Eti [Eh [Eah Es]]]].
  { destruct (String.eqb (Article.summary chosen) "") eqn:S.
    - destruct (newspaper_nlp w chosen) as [s | e]; [|discriminate].
      inversion Hf; subst article. simpl. repeat split.
      apply String.eqb_eq in S. intros H. contradiction.
    - inversion Hf; subst article. repeat split. }
  assert (Article.title chosen = Article.title parsed
          /\ Article.html chosen = Article.html parsed
          /\ Article.article_html chosen = Article.article_html parsed
          /\ Article.summary chosen = Article.summary parsed) as [Cti [Ch [Cah Cs]]].
  { unfold chosen. destruct (_ <? 50)%nat; [destruct (_ <? _)%nat|]; repeat split. }
  rewrite Et, Eti, Eh, Eah. rewrite Cs in Es.
  unfold chosen.
  destruct (Nat.ltb_spec (String.length (Article.text parsed)) 50) as [Short | Long];
    [destruct (Nat.ltb_spec (String.length (Article.text parsed)) (String.length fallback))
       as [Longer | Shorter]|];
    simpl; repeat split; auto; intros; auto; lia.
Qed.

Lemma fetched_text_witness :
  exists parsed,
    newspaper thin_world sample_link = Returned parsed
    /\ Article.text
         (Article.set_text thin_article "Al went to the fair.")
       = sample_html_to_text (Article.html parsed).
Proof.
  destruct (fetched_text_is_never_shorter_than_parsed sample_html_to_text thin_world sample_link
              (Article.set_text thin_article "Al went to the fair.") eq_refl)
    as [parsed [Hp [_ [_ [_ [_ [Hlonger _]]]]]]].
  exists parsed. split; [exact Hp|].
  inversion Hp; subst parsed. apply Hlonger; simpl; lia.
Defined.

(** X15. The spaCy pipeline is never handed more than 500,000 characters:
    what [nlp] is called on is the text itself when it has at most 500,000
    characters and its first 500,000 characters otherwise. *)
Theorem analysed_text_is_bounded :
  forall text,
    exists input,
      (forall nlp, analysed_document nlp text = nlp input)
      /\ Z.of_nat (String.length input) = Z.min (Z.of_nat (String.length text)) 500000
      /\ (exists rest, text = (input ++ rest)%string)
      /\ ((Z.of_nat (String.length text) <= 500000)%Z -> input = text).
Proof.
  intros text. unfold analysed_document.
  destruct (500000 <? Z.of_nat (String.length text))%Z eqn:E.
  - apply Z.ltb_lt in E.
    exists (substring 0 (Z.to_nat 500000) text).
    split; [reflexivity|]. split; [|split].
    + rewrite substring_0_length. lia.
    + apply substring_0_prefix.
    + intros H. lia.
  - apply Z.ltb_ge in E. exists text.
    split; [reflexivity|]. split; [lia|]. split; [|reflexivity].
    exists "". clear E. induction text as [|c text IH]; simpl; [reflexivity|].
    rewrite <- IH. reflexivity.
Qed.

(** X16. Whatever the request asked for, the entities of an enriched record
    are filtered with the default options: none has one of the eight
    excluded types, none has an empty text, and no two have the same type
    and the same lower-cased text. *)
Theorem record_entities_pass_the_default_filter :
  forall lower nlp md html_to_text w t_start t_end link record,
    process_article_data lower nlp md html_to_text w t_start t_end link = Returned record ->
    NoDup (map (entity_key lower) (ArticleResponse.entities record))
    /\ (forall e, In e (ArticleResponse.entities record) ->
                  ~ In (EntityResponse.type e) EXCLUDED_ENTITY_TYPES
                  /\ (1 <= String.length (EntityResponse.text e))%nat).
Proof.
  intros lower nlp md h2t w ts te link record Hrun.
  unfold process_article_data in Hrun.
  destruct (fetch_article h2t w link) as [article|]; [|discriminate].
  destruct (nlp_fault w); [discriminate|].
  destruct (md_fault w); [discriminate|].
  destruct (response_fault w); [discriminate|].
  simpl in Hrun. inversion Hrun; subst record; clear Hrun. simpl.
  destruct (entities_fault w); simpl.
  - split; [constructor | intros x []].
  - destruct (filter_entities_output lower
                (analysed_document nlp (Article.text article)) EntityFilterOptions.default)
      as [N P].
    split; [exact N|]. intros e He. destruct (P e He) as [Hk _].
    apply entity_kept_spec in Hk. destruct Hk as [Ht Hl]. simpl in Ht, Hl.
    split; [exact Ht | lia].
Qed.

Lemma record_entities_witness :
  NoDup (map (entity_key str_lower) (ArticleResponse.entities sample_enrichment)).
Proof.
  apply (proj1 (record_entities_pass_the_default_filter str_lower sample_nlp sample_md
                  sample_html_to_text sample_world 0 1 sample_link sample_enrichment
                  eq_refl)).
Defined.

(** X17. Filtering is idempotent: the filter applied to its own output, with
    the same options, returns that output unchanged. *)
Theorem filter_entities_is_idempotent :
  forall lower doc options,
    filter_entities lower
      {| ents := map span_of (filter_entities lower doc options) |} options
    = filter_entities lower doc options.
Proof.
  intros lower doc options.
  set (out := filter_entities lower doc options).
  destruct (filter_entities_output lower doc options) as [N P]. fold out in N, P.
  unfold filter_entities at 1. simpl ents.
  assert (filter (entity_kept options) (map span_of out) = map span_of out) as ->.
  { transitivity (filter (fun _ : Span.t => true) (map span_of out)); [|apply filter_true].
    apply filter_ext_in. intros x Hx. apply in_map_iff in Hx.
    destruct Hx as [e [<- He]]. apply (P e He). }
  rewrite map_map.
  assert (map (fun x => EntityResponse.mk (Span.label_ (span_of x)) (Span.text (span_of x))) out
          = out) as ->.
  { clear. induction out as [|[t x] l IH]; simpl; [reflexivity|]. f_equal. exact IH. }
  rewrite (dedup_loop_first_occurrences lower out [] [] []) by reflexivity. simpl.
  apply first_occurrences_id; [exact N|].
  intros e _ [y [[] _]].
Qed.

(** * Properties of the text routes *)

(** X18. The entities route applies the options of the request: what it
    returns is the filter's output on the analysed text, so no entity of an
    excluded type, none shorter than the minimum length and no two with the
    same type and lower-cased text; and when it fails, it fails with status
    500 and the cause in the detail. *)
Theorem extract_entities_applies_the_request_options :
  forall lower nlp nlp_fault filter_fault article filter_options,
    match extract_entities lower nlp nlp_fault filter_fault article filter_options with
    | Returned entities =>
        entities
        = filter_entities lower (analysed_document nlp (SummarizeAction.text article))
            filter_options
        /\ NoDup (map (entity_key lower) entities)
        /\ (forall e, In e entities ->
              ~ In (EntityResponse.type e) (EntityFilterOptions.exclude_types filter_options)
              /\ (EntityFilterOptions.min_length filter_options
                  <= Z.of_nat (String.length (EntityResponse.text e)))%Z)
    | Raised e =>
        exists cause,
          (nlp_fault = Some cause \/ filter_fault = Some cause)
          /\ e = HTTPException 500 ("Error extracting entities: " ++ str cause)
    end.
Proof.
  intros lower nlp nlp_fault filter_fault article options.
  unfold extract_entities.
  destruct nlp_fault as [c|]; simpl; [exists c; auto|].
  destruct filter_fault as [c|]; simpl; [exists c; auto|].
  destruct (filter_entities_output lower
              (analysed_document nlp (SummarizeAction.text article)) options) as [N P].
  split; [reflexivity|]. split; [exact N|].
  intros e He. destruct (P e He) as [Hk _]. apply entity_kept_spec in Hk. exact Hk.
Qed.

(** X19. The text routes and the article route agree where both succeed and
    differ in how they fail: on the text of a fetched article the entities
    route with default options returns the entities of the record, and the
    sentiment route returns the sentiment of the record when the scorer
    returns; when the scorer raises, the sentiment route fails with status
    500 while the record carries all-zero scores. *)
Theorem text_routes_agree_with_the_article_route :
  forall lower nlp md html_to_text w t_start t_end link article record max_length,
    fetch_article html_to_text w link = Returned article ->
    process_article_data lower nlp md html_to_text w t_start t_end link = Returned record ->
    let body := SummarizeAction.mk (Article.text article) max_length in
    (entities_fault w = None ->
     extract_entities lower nlp None None body EntityFilterOptions.default
     = Returned (ArticleResponse.entities record))
    /\ (forall scores,
          polarity_scores w (Article.text article) = Returned scores ->
          analyze_sentiment w body = Returned (ArticleResponse.sentiment record))
    /\ (forall cause,
          polarity_scores w (Article.text article) = Raised cause ->
          analyze_sentiment w body
          = Raised (HTTPException 500 ("Error analyzing sentiment: " ++ str cause))
          /\ ArticleResponse.sentiment record = SentimentResponse.mk 0 0 0 0).
Proof.
  intros lower nlp md h2t w ts te link article record max_length Hf Hrun body.
  unfold process_article_data in Hrun. rewrite Hf in Hrun.
  destruct (nlp_fault w); [discriminate|].
  destruct (md_fault w); [discriminate|].
  destruct (response_fault w); [discriminate|].
  simpl in Hrun. inversion Hrun; subst record; clear Hrun. simpl.
  split; [|split].
  - intros Hnone. rewrite Hnone. reflexivity.
  - intros scores Hs. unfold analyze_sentiment. simpl. rewrite Hs. reflexivity.
  - intros cause Hs. unfold analyze_sentiment. simpl. rewrite Hs. split; reflexivity.
Qed.

Lemma text_routes_witness :
  extract_entities str_lower sample_nlp None None
    (SummarizeAction.mk (Article.text sample_article) None) EntityFilterOptions.default
  = Returned [EntityResponse.mk "PERSON" "Al"].
Proof.
  apply (proj1 (text_routes_agree_with_the_article_route str_lower sample_nlp sample_md
                  sample_html_to_text sample_world 0 1 sample_link sample_article
                  sample_enrichment None eq_refl eq_refl)).
  reflexivity.
Defined.

(** X20. The tags route does not fail on account of the extractor: unless
    its worker thread is interrupted it returns a list, empty when the
    extractor raised; and for a body that passed validation (a text of at
    least 10 characters) the extractor is called exactly once, on that text,
    for English, 3-word phrases, deduplication at 0.9 and 5 results. *)
Theorem extract_tags_survives_the_extractor :
  forall yake article,
    (exists keywords, extract_tags yake None article = Returned keywords)
    /\ (forall cause,
          yake (keywords_config 3 5) (SummarizeAction.text article) = Raised cause ->
          extract_tags yake None article = Returned [])
    /\ (SummarizeAction.valid article ->
        snd (extract_keywords yake (SummarizeAction.text article) (keywords_config 3 5))
        = [YakeExtract {| language := "en"; n := 3; dedup_lim := 9 # 10; top := 5 |}
             (SummarizeAction.text article)]
        /\ forall found,
             yake (keywords_config 3 5) (SummarizeAction.text article) = Returned found ->
             extract_tags yake None article
             = Returned (map (fun p => KeywordResponse.mk (fst p) (snd p)) found)).
Proof.
  intros yake article. unfold extract_tags, extract_keywords. simpl to_thread.
  split; [eexists; reflexivity|]. split.
  - intros cause Hc.
    destruct (String.eqb _ "" || (_ <? 10)%nat); [reflexivity|]. rewrite Hc. reflexivity.
  - intros Hvalid. unfold SummarizeAction.valid in Hvalid.
    assert (String.eqb (SummarizeAction.text article) ""
            || (String.length (SummarizeAction.text article) <? 10)%nat = false) as ->.
    { apply orb_false_iff. split.
      - apply String.eqb_neq. intros E. rewrite E in Hvalid. simpl in Hvalid. lia.
      - apply Nat.ltb_ge. exact Hvalid. }
    split.
    + destruct (yake _ _); reflexivity.
    + intros found Hfound. rewrite Hfound. reflexivity.
Qed.

Lemma extract_tags_witness :
  snd (extract_keywords (yake sample_world) "Al went to the fair." (keywords_config 3 5))
  = [YakeExtract {| language := "en"; n := 3; dedup_lim := 9 # 10; top := 5 |}
       "Al went to the fair."].
Proof.
  apply (proj1 (proj2 (proj2 (extract_tags_survives_the_extractor (yake sample_world)
                                (SummarizeAction.mk "Al went to the fair." None)))
                  ltac:(unfold SummarizeAction.valid; simpl; lia))).
Defined.

Lemma string_length_append (a b : string) :
  String.length (a ++ b) = (String.length a + String.length b)%nat.
Proof. induction a as [|c a IH]; simpl; [reflexivity|]. rewrite IH. reflexivity. Qed.

Lemma string_append_assoc (a b c : string) : ((a ++ b) ++ c = a ++ (b ++ c))%string.
Proof. induction a as [|x a IH]; simpl; [reflexivity|]. rewrite IH. reflexivity. Qed.

Lemma before_last_space_prefix (s : string) :
  exists rest, s = (before_last_space s ++ rest)%string.
Proof.
  induction s as [|c s [rest IH]]; simpl.
  - exists "". reflexivity.
  - destruct (contains_space s).
    + exists rest. simpl. rewrite <- IH. reflexivity.
    + exists (String c s). reflexivity.
Qed.

Lemma rsplit_space_head_prefix (s : string) :
  exists rest, s = (rsplit_space_head s ++ rest)%string.
Proof.
  unfold rsplit_space_head. destruct (contains_space s).
  - apply before_last_space_prefix.
  - exists "". induction s as [|c s IH]; simpl; [reflexivity|]. rewrite <- IH. reflexivity.
Qed.

Lemma str_prefix_prefix (m : Z) (s : string) :
  exists rest, s = (str_prefix m s ++ rest)%string.
Proof. unfold str_prefix. destruct (m <? 0)%Z; apply substring_0_prefix. Qed.

(** X21. The summary route cuts a summary longer than a non-zero
    [max_length] to a prefix of it followed by three dots, and returns any
    other summary as it is (no [max_length], a [max_length] of 0, or a
    summary that fits).  For a positive [max_length] the prefix has at most
    [max_length] characters, so the result has at most [max_length + 3]; it
    has exactly that many, more than the maximum asked for, when the first
    [max_length] characters hold no space. *)
Theorem summary_is_cut_to_a_prefix_and_three_dots :
  forall summarize article summary,
    summarize (SummarizeAction.text article) = Returned summary ->
    exists out,
      summarize_text summarize article = Returned out
      /\ (SummarizeAction.max_length article = None
          \/ SummarizeAction.max_length article = Some 0%Z
          \/ (exists m, SummarizeAction.max_length article = Some m
                        /\ (Z.of_nat (String.length summary) <= m)%Z) ->
          out = summary)
      /\ (forall m,
            SummarizeAction.max_length article = Some m ->
            m <> 0%Z ->
            (m < Z.of_nat (String.length summary))%Z ->
            exists head rest,
              out = (head ++ "...")%string
              /\ summary = (head ++ rest)%string
              /\ ((0 < m)%Z ->
                  (Z.of_nat (String.length head) <= m)%Z
                  /\ (Z.of_nat (String.length out) <= m + 3)%Z))
      /\ (forall m,
            SummarizeAction.max_length article = Some m ->
            (0 < m < Z.of_nat (String.length summary))%Z ->
            contains_space (substring 0 (Z.to_nat m) summary) = false ->
            out = (substring 0 (Z.to_nat m) summary ++ "...")%string
            /\ Z.of_nat (String.length out) = (m + 3)%Z).
Proof.
  intros summarize article summary Hs.
  unfold summarize_text. rewrite Hs. eexists. split; [reflexivity|].
  unfold truncate_summary. split; [|split].
  - intros [-> | [-> | [m [-> Hfit]]]]; try reflexivity.
    assert ((m <? Z.of_nat (String.length summary))%Z = false) as -> by (apply Z.ltb_ge; lia).
    rewrite andb_false_r. reflexivity.
  - intros m -> Hnz Hlong.
    assert ((m =? 0)%Z = false) as -> by (apply Z.eqb_neq; exact Hnz).
    assert ((m <? Z.of_nat (String.length summary))%Z = true) as -> by (apply Z.ltb_lt; lia).
    simpl.
    destruct (str_prefix_prefix m summary) as [r1 E1].
    destruct (rsplit_space_head_prefix (str_prefix m summary)) as [r2 E2].
    exists (rsplit_space_head (str_prefix m summary)), (r2 ++ r1)%string.
    split; [reflexivity|]. split.
    + rewrite <- string_append_assoc, <- E2. exact E1.
    + intros Hpos.
      assert (Z.of_nat (String.length (rsplit_space_head (str_prefix m summary))) <= m)%Z as Hh.
      { apply (f_equal String.length) in E2. rewrite string_length_append in E2.
        assert (String.length (str_prefix m summary) = Nat.min (Z.to_nat m) (String.length summary))
          as El.
        { unfold str_prefix.
          assert ((m <? 0)%Z = false) as -> by (apply Z.ltb_ge; lia).
          apply substring_0_length. }
        lia. }
      split; [exact Hh|]. rewrite string_length_append. simpl. lia.
  - intros m -> [Hpos Hlong] Hnospace.
    assert ((m =? 0)%Z = false) as -> by (apply Z.eqb_neq; lia).
    assert ((m <? Z.of_nat (String.length summary))%Z = true) as -> by (apply Z.ltb_lt; lia).
    simpl. unfold str_prefix.
    assert ((m <? 0)%Z = false) as -> by (apply Z.ltb_ge; lia).
    unfold rsplit_space_head. rewrite Hnospace.
    split; [reflexivity|].
    rewrite string_length_append, substring_0_length. simpl. lia.
Qed.

Lemma summary_is_cut_witness :
  summarize_text (fun _ => Returned "Al went to the fair and met Al again.")
    (SummarizeAction.mk "Al went to the fair in 2023." (Some 2%Z))
  = Returned "Al...".
Proof.
  destruct (summary_is_cut_to_a_prefix_and_three_dots
              (fun _ => Returned "Al went to the fair and met Al again.")
              (SummarizeAction.mk "Al went to the fair in 2023." (Some 2%Z))
              "Al went to the fair and met Al again." eq_refl)
    as [out [Hout [_ [_ Hexact]]]].
  rewrite Hout.
  destruct (Hexact 2%Z eq_refl ltac:(simpl; lia) eq_refl) as [E _].
  rewrite E. reflexivity.
Defined.

(** * Properties of the lazily loaded components *)

Section ComponentsFacts.

Variables Model Analyzer : Type.
Variable spacy_load : nat -> outcome Model.
Variable new_analyzer : nat -> outcome Analyzer.

Local Abbreviation after_all := (components_after_all spacy_load new_analyzer).

Lemma loaded_components_stay_loaded reads :
  forall self : NLPComponents Model Analyzer,
    (forall model, _nlp self = Some model ->
                   _nlp (after_all reads self) = Some model
                   /\ spacy_loads (after_all reads self) = spacy_loads self)
    /\ (forall analyzer, _sentiment_analyzer self = Some analyzer ->
                         _sentiment_analyzer (after_all reads self) = Some analyzer
                         /\ analyzer_inits (after_all reads self) = analyzer_inits self).
Proof.
  induction reads as [|r reads IH]; intros self; simpl; [split; intros; auto|].
  destruct (IH (components_after spacy_load new_analyzer self r)) as [IHn IHs].
  split.
  - intros model Hm.
    assert (_nlp (components_after spacy_load new_analyzer self r) = Some model
            /\ spacy_loads (components_after spacy_load new_analyzer self r) = spacy_loads self)
      as [E1 E2].
    { destruct r; simpl.
      - unfold nlp_property. rewrite Hm. simpl. auto.
      - unfold sentiment_analyzer_property.
        destruct (_sentiment_analyzer self); [simpl; auto|].
        destruct (new_analyzer (analyzer_inits self)); simpl; auto. }
    destruct (IHn model E1) as [F1 F2]. split; [exact F1 | congruence].
  - intros analyzer Ha.
    assert (_sentiment_analyzer (components_after spacy_load new_analyzer self r)
            = Some analyzer
            /\ analyzer_inits (components_after spacy_load new_analyzer self r)
               = analyzer_inits self) as [E1 E2].
    { destruct r; simpl.
      - unfold nlp_property.
        destruct (_nlp self); [simpl; auto|].
        destruct (spacy_load (spacy_loads self)); simpl; auto.
      - unfold sentiment_analyzer_property. rewrite Ha. simpl. auto. }
    destruct (IHs analyzer E1) as [F1 F2]. split; [exact F1 | congruence].
Qed.

End ComponentsFacts.

(** X22. The spaCy model and the sentiment analyzer are loaded once and
    shared: once a read of the [nlp] property has returned a model, every
    later read, after any other reads, returns that same model without
    another call to [spacy.load]; and once the start-up of [lifespan] has
    returned, no read of either property calls a loader again. *)
Theorem components_are_loaded_once :
  forall (Model Analyzer : Type) spacy_load new_analyzer
         (self : NLPComponents Model Analyzer) reads,
    (forall model self',
        nlp_property spacy_load self = (Returned model, self') ->
        let later := components_after_all spacy_load new_analyzer reads self' in
        nlp_property spacy_load later = (Returned model, later)
        /\ spacy_loads later = spacy_loads self')
    /\ (forall started,
          lifespan_startup spacy_load new_analyzer self = (Returned tt, started) ->
          let later := components_after_all spacy_load new_analyzer reads started in
          spacy_loads later = spacy_loads started
          /\ analyzer_inits later = analyzer_inits started
          /\ fst (nlp_property spacy_load later) = fst (nlp_property spacy_load started)
          /\ fst (sentiment_analyzer_property new_analyzer later)
             = fst (sentiment_analyzer_property new_analyzer started)).
Proof.
  intros Model Analyzer spacy_load new_analyzer self reads.
  assert (forall model self',
             nlp_property spacy_load self = (Returned model, self') ->
             _nlp self' = Some model) as Hset.
  { intros model self' H. unfold nlp_property in H.
    destruct (_nlp self) as [m|] eqn:E.
    - inversion H; subst. exact E.
    - destruct (spacy_load (spacy_loads self)); inversion H; subst. reflexivity. }
  split.
  - intros model self' H later.
    destruct (loaded_components_stay_loaded Model Analyzer spacy_load new_analyzer reads self')
      as [Hn _].
    destruct (Hn model (Hset model self' H)) as [E1 E2]. fold later in E1, E2.
    split; [|exact E2]. unfold nlp_property. rewrite E1. reflexivity.
  - intros started H later.
    assert (exists model analyzer,
               _nlp started = Some model /\ _sentiment_analyzer started = Some analyzer)
      as [model [analyzer [Em Ea]]].
    { unfold lifespan_startup in H.
      destruct (nlp_property spacy_load self) as [[model | e] self1] eqn:H1; [|discriminate].
      pose proof (Hset model self1 eq_refl) as Em.
      unfold sentiment_analyzer_property in H.
      destruct (_sentiment_analyzer self1) as [a|] eqn:Ea.
      - inversion H; subst. eauto.
      - destruct (new_analyzer (analyzer_inits self1)); inversion H; subst.
        simpl. eauto. }
    destruct (loaded_components_stay_loaded Model Analyzer spacy_load new_analyzer reads started)
      as [Hn Hs].
    destruct (Hn model Em) as [N1 N2]. destruct (Hs analyzer Ea) as [S1 S2].
    fold later in N1, N2, S1, S2.
    split; [exact N2|]. split; [exact S2|].
    unfold nlp_property, sentiment_analyzer_property.
    rewrite N1, S1, Em, Ea. split; reflexivity.
Qed.

Lemma components_are_loaded_once_witness :
  spacy_loads
    (components_after_all (fun i => if Nat.eqb i 0 then Raised (Exception "no model")
                                    else Returned i)
       (fun _ => Returned tt)
       [read_sentiment_analyzer; read_nlp; read_nlp]
       (snd (nlp_property (fun i => if Nat.eqb i 0 then Raised (Exception "no model")
                                    else Returned i)
               (snd (nlp_property (fun i => if Nat.eqb i 0 then Raised (Exception "no model")
                                            else Returned i)
                       (@fresh_components nat unit))))))
  = 2%nat.
Proof.
  apply (proj2 (proj1 (components_are_loaded_once nat unit
                         (fun i => if Nat.eqb i 0 then Raised (Exception "no model")
                                   else Returned i)
                         (fun _ => Returned tt)
                         (snd (nlp_property
                                 (fun i => if Nat.eqb i 0 then Raised (Exception "no model")
                                           else Returned i)
                                 (@fresh_components nat unit)))
                         [read_sentiment_analyzer; read_nlp; read_nlp])
                  1%nat _ eq_refl)).
Defined.
